(** * Order/EAN URL generator ([url-generator-dpp/generate_urls.py])

    A shallow embedding of the spreadsheet join script and the properties
    of its join engine, column resolution, file-pair discovery and output
    writer.

    Modelling conventions.
    - A Python [str] is a Rocq [string] holding its UTF-8 encoding; equality,
      concatenation, the order of code points and [rstrip("/")] are the same
      on both sides.
    - [str.lower] and [str.strip] depend on the Unicode tables of the Python
      runtime, which are not part of the repository: they are the parameters
      [py_lower] and [py_strip] of the development (class [PyStr]), known on
      ASCII text (class [PyStrLaws]). Module [Str] holds their ASCII
      fragments.
    - The refusals of the Excel writing library are the parameter
      [to_excel_error] (class [ExcelWriter]).
    - Reading a workbook is left to [pd.read_excel]: the readers are
      modelled from the frame it returned.
    - A spreadsheet cell read with [dtype=str] is an [option string],
      [None] standing for pandas' NaN / NA.
    - A raw [DataFrame] is a list of labelled columns; the frames built
      by [read_orders] / [read_eans] have a fixed shape and are lists of
      records.
    - A Python exception is the [Err] branch of [result]. *)

From Stdlib Require Import Ascii ZArith.
From stdpp Require Import base list strings gmap sorting.

Local Open Scope Z_scope.

(** Decide a closed decidable proposition by evaluation. *)
Ltac vm_decide := apply (bool_decide_unpack _); vm_compute; exact I.

(** ** Strings *)

Module Str.

(** [str.lower] on ASCII text: only [A]..[Z] change. *)
Definition lower_char (c : ascii) : ascii :=
  let n := N_of_ascii c in
  if ((65 <=? n) && (n <=? 90))%N then ascii_of_N (n + 32) else c.

Fixpoint lower (s : string) : string :=
  match s with
  | EmptyString => EmptyString
  | String c s' => String (lower_char c) (lower s')
  end.

(** [str.isspace] on ASCII characters: TAB, LF, VT, FF, CR, FS, GS, RS, US,
    space. *)
Definition is_whitespace (c : ascii) : bool :=
  let n := N_of_ascii c in
  (((9 <=? n) && (n <=? 13)) || ((28 <=? n) && (n <=? 32)))%N.

Definition is_slash (c : ascii) : bool :=
  if decide (c = "/"%char) then true else false.

(** [s.lstrip(chars)] and [s.rstrip(chars)], the character set given as a
    predicate. *)
Fixpoint lstrip_chars (p : ascii → bool) (s : string) : string :=
  match s with
  | EmptyString => EmptyString
  | String c s' => if p c then lstrip_chars p s' else s
  end.

Fixpoint rstrip_chars (p : ascii → bool) (s : string) : string :=
  match s with
  | EmptyString => EmptyString
  | String c s' =>
      match rstrip_chars p s' with
      | EmptyString => if p c then EmptyString else String c EmptyString
      | r => String c r
      end
  end.

(** [s.strip()] on ASCII text. *)
Definition strip (s : string) : string :=
  rstrip_chars is_whitespace (lstrip_chars is_whitespace s).

(** Text all of whose characters are ASCII. *)
Fixpoint is_ascii (s : string) : bool :=
  match s with
  | EmptyString => true
  | String c s' => (N_of_ascii c <? 128)%N && is_ascii s'
  end.

(** [s.startswith(prefix)] and [s.endswith(suffix)] *)
Fixpoint startswith (s prefix : string) : bool :=
  match prefix, s with
  | EmptyString, _ => true
  | String p prefix', String c s' =>
      if decide (c = p) then startswith s' prefix' else false
  | String _ _, EmptyString => false
  end.

Definition endswith (s suffix : string) : bool :=
  startswith (String.rev s) (String.rev suffix).

Fixpoint take (n : nat) (s : string) : string :=
  match n, s with
  | S n', String c s' => String c (take n' s')
  | _, _ => EmptyString
  end.

(** [s[:-k]] for a positive [k]. *)
Definition drop_last (k : nat) (s : string) : string :=
  take (String.length s - k)%nat s.

(** [s.rfind(".")]: index of the last dot, if any. *)
Fixpoint rfind_dot (s : string) : option nat :=
  match s with
  | EmptyString => None
  | String c s' =>
      match rfind_dot s' with
      | Some i => Some (S i)
      | None => if decide (c = "."%char) then Some 0%nat else None
      end
  end.

End Str.

(** ** Exceptions *)

Inductive exn : Type :=
| KeyError (preferred_names : list string) (fallback_index : Z)
| LabelKeyError (label : string)
| AttributeError
| ValueError
| IllegalCharacterError.

Inductive result (A : Type) : Type :=
| Ok (a : A)
| Err (e : exn).
Arguments Ok {A} a.
Arguments Err {A} e.

Global Instance result_bind : MBind result :=
  λ A B k r, match r with Ok a => k a | Err e => Err e end.

(** ** The join engine: [build_urls] *)

(** A row of the frame returned by [read_orders]; the unmatched output has
    the same three columns. *)
Record Order : Type := mkOrder {
  o_purchase_order : string;
  o_product : string;
  o_base_url : string;
}.

(** A row of the frame returned by [read_eans]. *)
Record Ean : Type := mkEan {
  e_product : string;
  e_ean : string;
}.

(** A row of [merged]: the columns of [left] and the [ean] column of
    [right], which is NaN when the left row found no partner. *)
Record Merged : Type := mkMerged {
  m_purchase_order : string;
  m_product : string;
  m_base_url : string;
  m_product_key : string;
  m_ean : option string;
}.

(** A row of the matched output (sheet "urls"). *)
Record UrlRow : Type := mkUrlRow {
  purchase_order : string;
  product : string;
  base_url : string;
  ean : string;
  url : string;
}.

Global Instance Order_eq_dec : EqDecision Order.
Proof. solve_decision. Defined.
Global Instance Ean_eq_dec : EqDecision Ean.
Proof. solve_decision. Defined.
Global Instance UrlRow_eq_dec : EqDecision UrlRow.
Proof. solve_decision. Defined.

(** A sheet of the output workbook. *)
Inductive Sheet : Type :=
| UrlSheet (rows : list UrlRow)
| OrderSheet (rows : list Order).

(** The sheets of the workbook under construction, by name. *)
Abbreviation Workbook := (list (string * Sheet)).

(** ** Library parameters *)

(** [str.lower] and [str.strip] of the Python runtime, on UTF-8 text. *)
Class PyStr : Type := {
  py_lower : string → string;
  py_strip : string → string;
}.

(** What is used of them: on ASCII text they are the functions of module
    [Str], and stripping a stripped text changes nothing. *)
Class PyStrLaws (py_str : PyStr) : Prop := {
  py_lower_ascii s : Str.is_ascii s = true → py_lower s = Str.lower s;
  py_strip_ascii s : Str.is_ascii s = true → py_strip s = Str.strip s;
  py_strip_idemp s : py_strip (py_strip s) = py_strip s;
}.

(** [Some e] when [df.to_excel] refuses the sheet, raising [e] (a sheet
    beyond the size limit of the format, a cell with a character the format
    forbids). *)
Class ExcelWriter : Type := to_excel_error : Sheet → option exn.

(** The ASCII fragments as an instance, and a writer refusing nothing;
    they give the behaviour of the libraries on the sample inputs. *)
Definition ascii_str : PyStr := {| py_lower := Str.lower; py_strip := Str.strip |}.
Definition accepting_writer : ExcelWriter := λ _, None.

Section generate_urls.
Context {py_str : PyStr} {excel_writer : ExcelWriter}.

(** [s.str.strip().str.lower()] *)
Definition product_key (s : string) : string := py_lower (py_strip s).

(** [left.merge(right[["product_key", "ean"]], on="product_key", how="left")]:
    left rows in order, each followed by its partners in [right] order, or
    kept once with a missing [ean]. *)
Definition merge_row (l : Order * string) (right : list (string * string))
    : list Merged :=
  let '(o, k) := l in
  let row e := mkMerged (o_purchase_order o) (o_product o) (o_base_url o) k e in
  match filter (λ r, r.1 = k) right with
  | [] => [row None]
  | partners => (λ r, row (Some r.2)) <$> partners
  end.

Definition merge (left : list (Order * string)) (right : list (string * string))
    : list Merged :=
  l ← left; merge_row l right.

(** [df.drop_duplicates()]: the first occurrence of each row is kept. *)
Fixpoint drop_duplicates_from {A} `{EqDecision A} (seen l : list A) : list A :=
  match l with
  | [] => []
  | x :: l' =>
      if decide (x ∈ seen) then drop_duplicates_from seen l'
      else x :: drop_duplicates_from (x :: seen) l'
  end.

Definition drop_duplicates {A} `{EqDecision A} (l : list A) : list A :=
  drop_duplicates_from [] l.

(** [str(url).rstrip("/")] *)
Definition normalize_base (url : string) : string :=
  Str.rstrip_chars Str.is_slash url.

(** Lexicographic order on pairs, for the multi-column sort. *)
Definition lex_le {A B} (RA : relation A) (RB : relation B) : relation (A * B) :=
  λ x y, (x.1 ≠ y.1 ∧ RA x.1 y.1) ∨ (x.1 = y.1 ∧ RB x.2 y.2).

Global Instance lex_le_dec {A B} `{EqDecision A} (RA : relation A) (RB : relation B)
  `{!RelDecision RA, !RelDecision RB} : RelDecision (lex_le RA RB).
Proof. intros x y. unfold lex_le. apply _. Defined.

(** The sort key of [sort_values(["product", "purchase_order", "ean"])]. *)
Definition sort_key (r : UrlRow) : string * string * string :=
  (product r, purchase_order r, ean r).

Definition key_le : relation UrlRow :=
  λ r1 r2, lex_le (lex_le String.le String.le) String.le (sort_key r1) (sort_key r2).

Global Instance key_le_dec : RelDecision key_le.
Proof. intros r1 r2. unfold key_le. apply _. Defined.

(** [sort_values] on several columns is a stable sort: rows with equal
    keys keep their relative order. *)
Fixpoint sort_insert (r : UrlRow) (l : list UrlRow) : list UrlRow :=
  match l with
  | [] => [r]
  | x :: l' => if decide (key_le r x) then r :: l else x :: sort_insert r l'
  end.

Definition sort_values (l : list UrlRow) : list UrlRow :=
  foldr sort_insert [] l.

Definition build_urls (orders : list Order) (eans : list Ean)
    : list UrlRow * list Order :=
  let left := (λ o, (o, product_key (o_product o))) <$> orders in
  let right := (λ e, (product_key (e_product e), e_ean e)) <$> eans in
  let merged := merge left right in
  (* matched = merged.dropna(subset=["ean"]) *)
  let matched :=
    omap (λ m, (λ e, (m, e)) <$> m_ean m) merged in
  (* unmatched = merged[merged["ean"].isna()][[...]].drop_duplicates() *)
  let unmatched :=
    drop_duplicates
      ((λ m, mkOrder (m_purchase_order m) (m_product m) (m_base_url m))
         <$> filter (λ m, m_ean m = None) merged) in
  let result :=
    (λ me : Merged * string,
       let '(m, e) := me in
       let base := normalize_base (m_base_url m) in
       mkUrlRow (m_purchase_order m) (m_product m) base e
         (base +:+ "/01/" +:+ e +:+ "/10/" +:+ m_purchase_order m))
      <$> matched in
  (sort_values result, unmatched).

(** ** Raw tables and column resolution *)

(** A cell read with [dtype=str]: text, or [None] for NaN. *)
Abbreviation cell := (option string).
Abbreviation Series := (list cell).

(** The labelled columns of a frame, left to right; all columns of one
    frame have the same length. *)
Abbreviation DataFrame := (list (string * Series)).

(** What [df[label]] evaluates to: a [Series] when one column carries the
    label, a sub-frame when several do. *)
Inductive Selection : Type :=
| SeriesOf (s : Series)
| FrameOf (cols : DataFrame).

Definition normalize_column_names (df : DataFrame) : DataFrame :=
  (λ c, (py_strip c.1, c.2)) <$> df.

(** [df[label]] *)
Definition getitem (df : DataFrame) (label : string) : result Selection :=
  match filter (λ c, c.1 = label) df with
  | [] => Err (LabelKeyError label)
  | [c] => Ok (SeriesOf c.2)
  | cols => Ok (FrameOf cols)
  end.

(** [df.iloc[:, i]] for an index already checked to be in range. *)
Definition iloc (df : DataFrame) (i : Z) : option Series :=
  snd <$> df !! Z.to_nat i.

(** [{str(c).strip().lower(): c for c in df.columns}]: a later column
    overwrites an earlier one with the same key. *)
Definition lower_map_add (m : gmap string string) (c : string * Series)
    : gmap string string :=
  <[py_lower (py_strip c.1) := c.1]> m.

Definition lower_map (df : DataFrame) : gmap string string :=
  foldl lower_map_add ∅ df.

(** The [for name in preferred_names] loop: the label under the first
    name whose lower-cased form is a key of the map. *)
Fixpoint find_preferred (m : gmap string string) (preferred_names : list string)
    : option string :=
  match preferred_names with
  | [] => None
  | name :: rest =>
      match m !! py_lower name with
      | Some c => Some c
      | None => find_preferred m rest
      end
  end.

Definition get_column (df : DataFrame) (preferred_names : list string)
    (fallback_index : Z) : result Selection :=
  match find_preferred (lower_map df) preferred_names with
  | Some c => getitem df c
  | None =>
      if decide (0 ≤ fallback_index < Z.of_nat (length df)) then
        match iloc df fallback_index with
        | Some s => Ok (SeriesOf s)
        | None => Err (KeyError preferred_names fallback_index)
        end
      else Err (KeyError preferred_names fallback_index)
  end.

(** ** Readers *)

(** [x.astype(str)] on one cell: NaN becomes the text ["nan"]. *)
Definition astype_str (c : cell) : string := default "nan" c.

(** [x.astype(str).str.strip()]; a frame has no [.str] accessor. *)
Definition str_strip (x : Selection) : result (list string) :=
  match x with
  | SeriesOf s => Ok ((λ c, py_strip (astype_str c)) <$> s)
  | FrameOf _ => Err AttributeError
  end.

(** [replace({"": pd.NA, "nan": pd.NA})] on one cell. *)
Definition replace_na (s : string) : cell :=
  if decide (s = "" ∨ s = "nan") then None else Some s.

(** The tail of [read_orders]: build [out], blank out the missing
    values, drop the rows missing any of the three fields. *)
Definition orders_frame (purchase_order product base_url : list string)
    : list Order :=
  omap (λ row : string * string * string,
          let '(po, p, b) := row in
          po' ← replace_na po; p' ← replace_na p; b' ← replace_na b;
          Some (mkOrder po' p' b'))
       (zip (zip purchase_order product) base_url).

Definition eans_frame (product ean : list string) : list Ean :=
  omap (λ row : string * string,
          let '(p, e) := row in
          p' ← replace_na p; e' ← replace_na e;
          Some (mkEan p' e'))
       (zip product ean).

Definition purchase_order_names : list string := ["purchase_order"; "purchase order"; "po"].
Definition product_names : list string := ["product"; "product_code"; "sku"].
Definition base_url_names : list string := ["base_url"; "base url"; "url"].
Definition ean_names : list string := ["ean"; "barcode"].

(** [read_orders], from the frame [pd.read_excel(path, dtype=str)] gave. *)
Definition read_orders (df : DataFrame) : result (list Order) :=
  let df := normalize_column_names df in
  purchase_order ← get_column df purchase_order_names 0;
  product ← get_column df product_names 1;
  base_url ← get_column df base_url_names 2;
  purchase_order ← str_strip purchase_order;
  product ← str_strip product;
  base_url ← str_strip base_url;
  Ok (orders_frame purchase_order product base_url).

Definition read_eans (df : DataFrame) : result (list Ean) :=
  let df := normalize_column_names df in
  product ← get_column df product_names 0;
  ean ← get_column df ean_names 1;
  product ← str_strip product;
  ean ← str_strip ean;
  Ok (eans_frame product ean).

(** ** Output writer *)

(** [df.to_excel(writer, index=False, sheet_name=name)] *)
Definition to_excel (writer : Workbook) (sheet_name : string) (sh : Sheet)
    : Workbook :=
  writer ++ [(sheet_name, sh)].

(** The [with pd.ExcelWriter(...)] block of [process_pair]. *)
Definition write_output (urls_df : list UrlRow) (unmatched_df : list Order)
    : Workbook :=
  let writer := to_excel [] "urls" (UrlSheet urls_df) in
  if decide (unmatched_df = []) then writer
  else to_excel writer "unmatched_orders" (OrderSheet unmatched_df).

(** The exception, if any, of the [to_excel] calls of that block. *)
Definition writer_error (urls_df : list UrlRow) (unmatched_df : list Order)
    : option exn :=
  match to_excel_error (UrlSheet urls_df) with
  | Some e => Some e
  | None =>
      if decide (unmatched_df = []) then None
      else to_excel_error (OrderSheet unmatched_df)
  end.

(** [process_pair], from the frames [pd.read_excel] gave for the two
    paths. *)
Definition process_pair (eans_file orders_file : DataFrame) : result Workbook :=
  orders_df ← read_orders orders_file;
  eans_df ← read_eans eans_file;
  let '(urls_df, unmatched_df) := build_urls orders_df eans_df in
  match writer_error urls_df unmatched_df with
  | Some e => Err e
  | None => Ok (write_output urls_df unmatched_df)
  end.

(** ** File-pair discovery *)

(** A Python [dict] with string keys, in insertion order. *)
Abbreviation pydict V := (list (string * V)).

(** [d[k] = v]: overwrite in place, or append. *)
Fixpoint dict_set {V} (d : pydict V) (k : string) (v : V) : pydict V :=
  match d with
  | [] => [(k, v)]
  | (k', v') :: d' =>
      if decide (k' = k) then (k, v) :: d' else (k', v') :: dict_set d' k v
  end.

(** [d.get(k)] *)
Fixpoint dict_get {V} (d : pydict V) (k : string) : option V :=
  match d with
  | [] => None
  | (k', v') :: d' => if decide (k' = k) then Some v' else dict_get d' k
  end.

(** [Path.stem]: the name without its last suffix; a leading or a final
    dot starts no suffix. *)
Definition stem (name : string) : string :=
  match Str.rfind_dot name with
  | Some i =>
      if decide (0 < i ∧ i < String.length name - 1)%nat then Str.take i name
      else name
  | None => name
  end.

(** [directory.glob("*.xlsx")] over the names of the directory entries. *)
Definition glob_xlsx (directory : list string) : list string :=
  filter (λ name, Str.endswith name ".xlsx" = true) directory.

(** One turn of the scanning loop over [(eans_files, orders_files)]. The
    suffix tests read the last five or seven characters of the lower-cased
    stem only; these are ASCII when the test succeeds, and no other
    character lower-cases to one of them, so that the ASCII [Str.lower]
    decides the tests as [str.lower] does. *)
Definition scan_path (st : pydict string * pydict string) (path : string)
    : pydict string * pydict string :=
  let '(eans_files, orders_files) := st in
  let name := stem path in
  let lower := Str.lower name in
  if Str.endswith lower "_eans" then
    (dict_set eans_files (Str.drop_last 5 name) path, orders_files)
  else if Str.endswith lower "_orders" then
    (eans_files, dict_set orders_files (Str.drop_last 7 name) path)
  else st.

(** [find_file_pairs]: triples [(eans_path, orders_path, base)]. *)
Definition find_file_pairs (directory : list string)
    : list (string * string * string) :=
  let '(eans_files, orders_files) :=
    foldl scan_path ([], []) (glob_xlsx directory) in
  omap (λ item : string * string,
          let '(base, eans_path) := item in
          (λ orders_path, (eans_path, orders_path, base))
            <$> dict_get orders_files base)
       eans_files.

(** ** Batch driver: [main] *)

(** [f"{base}_urls.xlsx"], the name of the output file in the script's
    directory. *)
Definition output_name (base : string) : string := base +:+ "_urls.xlsx".

(** Why a pair was not processed: an exception of the readers, or a path
    that is not in the directory. *)
Inductive failure : Type :=
| Raised (e : exn)
| FileNotFoundError (path : string).

(** The lines [main] prints, by format and arguments. *)
Inductive line : Type :=
| NoPairsLine
| ProcessingLine (eans_name orders_name output : string)
| WroteLine (output : string)
| FailedLine (base : string) (exc : failure).

(** [pd.read_excel(path, dtype=str)] on the files of the directory, given
    by name with the frame each holds. *)
Definition read_excel (files : pydict DataFrame) (path : string)
    : option DataFrame :=
  dict_get files path.

(** The [try] block of [main]: [process_pair] on two paths, orders file
    first, giving the workbook written or the exception caught. *)
Definition try_process_pair (files : pydict DataFrame)
    (eans_path orders_path : string) : Workbook + failure :=
  match read_excel files orders_path with
  | None => inr (FileNotFoundError orders_path)
  | Some orders_file =>
      match read_orders orders_file, read_excel files eans_path with
      | Err exc, _ => inr (Raised exc)
      | Ok _, None => inr (FileNotFoundError eans_path)
      | Ok _, Some eans_file =>
          match process_pair eans_file orders_file with
          | Ok wb => inl wb
          | Err exc => inr (Raised exc)
          end
      end
  end.

(** The line printed after the [try] block. *)
Definition result_line (base : string) (r : Workbook + failure) : line :=
  match r with
  | inl _ => WroteLine (output_name base)
  | inr exc => FailedLine base exc
  end.


(** One turn of the loop of [main], on the lines printed so far. *)
Definition main_pair (files : pydict DataFrame)
    (out : list line) (pair : string * string * string) : list line :=
  let '(eans_path, orders_path, base) := pair in
  let output_path := output_name base in
  let out := out ++ [ProcessingLine eans_path orders_path output_path] in
  out ++ [result_line base (try_process_pair files eans_path orders_path)].

(** [main]: the printed lines and the exit status. *)
Definition main (files : pydict DataFrame) : list line * Z :=
  let pairs := find_file_pairs files.*1 in
  if decide (pairs = []) then ([NoPairsLine], 0)
  else (foldl (main_pair files) [] pairs, 0).

(** ** [build_urls] on frames *)

(** A frame of text columns with pairwise different labels, as the frames
    [read_orders] and [read_eans] return: a map from label to column. *)
Abbreviation TextFrame := (gmap string (list string)).





(** ** Vocabulary of the statements *)

(** The output row the source builds from an order and one of its
    partners. *)
Definition url_row (o : Order) (e : Ean) : UrlRow :=
  let base := normalize_base (o_base_url o) in
  mkUrlRow (o_purchase_order o) (o_product o) base (e_ean e)
    (base +:+ "/01/" +:+ e_ean e +:+ "/10/" +:+ o_purchase_order o).

(** The key under which two column names are compared by [get_column]. *)
Definition header_key (c : string) : string := py_lower (py_strip c).

(** The column names by which no accepted alias is matched. *)
Definition no_alias (df : DataFrame) (preferred_names : list string) : Prop :=
  ∀ name c, name ∈ preferred_names → c ∈ df.*1 →
            py_lower name ≠ py_lower (py_strip c).

(** The text of a column as the readers use it:
    [x.astype(str).str.strip()]. *)
Definition clean (s : Series) : list string :=
  (λ c, py_strip (astype_str c)) <$> s.

(** A file stem recognised by its suffix, and the base name left of it. *)
Definition recognised (suffix base path : string) : Prop :=
  Str.endswith (Str.lower (stem path)) suffix = true
  ∧ Str.drop_last (String.length suffix) (stem path) = base.

(** A cell text that [replace] leaves in place: neither empty nor "nan". *)
Definition present (s : string) : Prop := s ≠ "" ∧ s ≠ "nan".

(** The rows of three (two) text columns side by side, before any is
    dropped. *)
Definition order_rows (purchase_order product base_url : list string)
    : list Order :=
  (λ r : string * string * string, mkOrder r.1.1 r.1.2 r.2)
    <$> zip (zip purchase_order product) base_url.

Definition ean_rows (product ean : list string) : list Ean :=
  (λ r : string * string, mkEan r.1 r.2) <$> zip product ean.

Definition order_present (o : Order) : Prop :=
  present (o_purchase_order o) ∧ present (o_product o) ∧ present (o_base_url o).

Definition ean_present (e : Ean) : Prop :=
  present (e_product e) ∧ present (e_ean e).

Global Instance present_dec s : Decision (present s).
Proof. unfold present. apply _. Defined.
Global Instance order_present_dec o : Decision (order_present o).
Proof. unfold order_present. apply _. Defined.
Global Instance ean_present_dec e : Decision (ean_present e).
Proof. unfold ean_present. apply _. Defined.


(** Sample tables. *)
Definition ex_orders_table : DataFrame :=
  [("PO", [Some "PO1"]); ("SKU", [Some " P1 "]); ("URL", [Some "http://x.com/"])].
Definition ex_eans_table : DataFrame :=
  [("item", [Some "P1"]); ("number", [Some "0012345"])].
Definition ex_plain_orders_table : DataFrame :=
  [("a", [Some "PO1"]); ("b", [Some "P1"]); ("c", [Some "http://x.com/"])].

(** A sample directory. *)
Definition ex_files : pydict DataFrame :=
  [("a_eans.xlsx", ex_eans_table); ("a_orders.xlsx", ex_orders_table)].

(** The [merged] row of an order with the [ean] cell [e]. *)
Definition merged_row (o : Order) (e : option string) : Merged :=
  mkMerged (o_purchase_order o) (o_product o) (o_base_url o)
    (product_key (o_product o)) e.

(** The join condition on a pair of input rows. *)
Definition keys_agree (o : Order) (e : Ean) : Prop :=
  product_key (o_product o) = product_key (e_product e).

Global Instance keys_agree_dec : RelDecision keys_agree.
Proof. intros o e. unfold keys_agree. apply _. Defined.

Definition partners (eans : list Ean) (o : Order) : list Ean :=
  filter (λ e, keys_agree o e) eans.

(** The [right[["product_key", "ean"]]] frame of [build_urls]. *)
Definition right_of (eans : list Ean) : list (string * string) :=
  (λ e, (product_key (e_product e), e_ean e)) <$> eans.




(** Sample inputs used in the examples below. *)
Definition ex_orders_slash : list Order := [mkOrder "PO1" "P1" "http://x.com/"].
Definition ex_eans : list Ean := [mkEan "P1" "0012345"].
Definition ex_row : UrlRow :=
  mkUrlRow "PO1" "P1" "http://x.com" "0012345" "http://x.com/01/0012345/10/PO1".
Definition ex_orders_dup : list Order :=
  [mkOrder "PO1" "P1" "http://x.com/";
   mkOrder "PO2" "P9" "http://y.com";
   mkOrder "PO2" "P9" "http://y.com"].

Definition ex_workbook : Workbook := [("urls", UrlSheet [ex_row])].
Definition ex_lines : list line :=
  [ProcessingLine "a_eans.xlsx" "a_orders.xlsx" "a_urls.xlsx";
   WroteLine "a_urls.xlsx"].

(** * Properties *)

Context {py_str_laws : PyStrLaws py_str}.

(** ** Strings *)

Lemma rstrip_chars_cons p c s :
  Str.rstrip_chars p (String c s) =
  match Str.rstrip_chars p s with
  | EmptyString => if p c then EmptyString else String c EmptyString
  | r => String c r
  end.
Proof. reflexivity. Qed.

Lemma rstrip_chars_idemp p s :
  Str.rstrip_chars p (Str.rstrip_chars p s) = Str.rstrip_chars p s.
Proof.
  induction s as [|c s IH]; [done|]. rewrite rstrip_chars_cons.
  destruct (Str.rstrip_chars p s) as [|c' r] eqn:E.
  - destruct (p c) eqn:Hc; [done|]. rewrite rstrip_chars_cons. simpl. by rewrite Hc.
  - rewrite rstrip_chars_cons, IH. done.
Qed.


(** ** [drop_duplicates] *)

Section drop_duplicates.
Context {A : Type} `{EqDecision A}.
Implicit Types (l seen : list A).

Lemma elem_of_drop_duplicates_from seen l x :
  x ∈ drop_duplicates_from seen l ↔ x ∈ l ∧ x ∉ seen.
Proof.
  revert seen. induction l as [|y l IH]; intros seen; simpl.
  - rewrite elem_of_nil. tauto.
  - destruct (decide (y ∈ seen)) as [Hy|Hy].
    + rewrite IH, elem_of_cons. split; [tauto|].
      intros [[->|?] ?]; tauto.
    + rewrite !elem_of_cons, IH, elem_of_cons. split.
      * intros [->|[? ?]]; [tauto|]. split; [tauto|]. tauto.
      * intros [[->|?] ?]; [tauto|].
        destruct (decide (x = y)); [tauto|]. right. tauto.
Qed.

Lemma NoDup_drop_duplicates_from seen l : NoDup (drop_duplicates_from seen l).
Proof.
  revert seen. induction l as [|y l IH]; intros seen; simpl; [constructor|].
  destruct (decide (y ∈ seen)); [done|]. constructor; [|done].
  rewrite elem_of_drop_duplicates_from, elem_of_cons. tauto.
Qed.

Lemma elem_of_drop_duplicates l x : x ∈ drop_duplicates l ↔ x ∈ l.
Proof.
  unfold drop_duplicates. rewrite elem_of_drop_duplicates_from, elem_of_nil. tauto.
Qed.

Lemma NoDup_drop_duplicates l : NoDup (drop_duplicates l).
Proof. apply NoDup_drop_duplicates_from. Qed.

Lemma drop_duplicates_Permutation l k :
  l ≡ₚ k → drop_duplicates l ≡ₚ drop_duplicates k.
Proof.
  intros Hlk. apply NoDup_Permutation; [apply NoDup_drop_duplicates..|].
  intros x. by rewrite !elem_of_drop_duplicates, Hlk.
Qed.

End drop_duplicates.

(** ** The multi-column sort *)

Section lex_le.
Context {A B : Type} (RA : relation A) (RB : relation B).
Context `{!PartialOrder RA, !PartialOrder RB}.

Global Instance lex_le_po : PartialOrder (lex_le RA RB).
Proof.
  split; [split|].
  - intros [a b]. right. done.
  - intros [a1 b1] [a2 b2] [a3 b3]. unfold lex_le; simpl.
    intros [[Hne1 H1]|[-> H1]] [[Hne2 H2]|[-> H2]].
    + left. split; [|by etrans].
      intros ->. apply Hne1. by apply (anti_symm RA).
    + left. done.
    + left. done.
    + right. split; [done|]. by etrans.
  - intros [a1 b1] [a2 b2]. unfold lex_le; simpl.
    intros [[Hne1 H1]|[-> H1]] [[Hne2 H2]|[Heq H2]]; try done.
    + destruct Hne1. by apply (anti_symm RA).
    + f_equal. by apply (anti_symm RB).
Qed.

Global Instance lex_le_total `{!EqDecision A, !Total RA, !Total RB} :
  Total (lex_le RA RB).
Proof.
  intros [a1 b1] [a2 b2]. unfold lex_le; simpl.
  destruct (decide (a1 = a2)) as [->|Hne].
  - destruct (total RB b1 b2); [left|right]; right; done.
  - destruct (total RA a1 a2); [left|right]; left; split; congruence.
Qed.

End lex_le.

Global Instance key_le_trans : Transitive key_le.
Proof. intros r1 r2 r3. unfold key_le. apply transitivity. Qed.

Global Instance key_le_total : Total key_le.
Proof. intros r1 r2. unfold key_le. apply total, _. Qed.


Lemma sort_insert_Permutation r l : sort_insert r l ≡ₚ r :: l.
Proof.
  induction l as [|x l IH]; simpl; [done|].
  destruct (decide (key_le r x)); [done|].
  rewrite IH. apply perm_swap.
Qed.

Lemma sort_values_Permutation l : sort_values l ≡ₚ l.
Proof.
  induction l as [|x l IH]; simpl; [done|].
  by rewrite sort_insert_Permutation, IH.
Qed.

Lemma Sorted_sort_insert r l : Sorted key_le l → Sorted key_le (sort_insert r l).
Proof.
  induction 1 as [|x l Hl IH Hhd]; simpl.
  { apply Sorted_cons; constructor. }
  destruct (decide (key_le r x)) as [Hle|Hnle].
  - apply Sorted_cons; [by apply Sorted_cons|by apply HdRel_cons].
  - constructor; [done|].
    assert (key_le x r) by (destruct (total key_le x r); done).
    destruct Hhd as [|y l' Hxy]; simpl; [by constructor|].
    destruct (decide (key_le r y)); by constructor.
Qed.

Lemma Sorted_sort_values l : Sorted key_le (sort_values l).
Proof.
  induction l as [|x l IH]; simpl; [constructor|]. by apply Sorted_sort_insert.
Qed.

(** ** The join engine *)

Lemma filter_right_of eans o :
  filter (λ r : string * string, r.1 = product_key (o_product o)) (right_of eans)
  = (λ e, (product_key (e_product e), e_ean e)) <$> partners eans o.
Proof.
  unfold right_of, partners.
  induction eans as [|e eans IH]; [done|]. csimpl.
  rewrite !filter_cons. simpl.
  destruct (decide (product_key (e_product e) = product_key (o_product o))) as [Heq|Hne].
  - rewrite decide_True by (unfold keys_agree; congruence). csimpl. by rewrite IH.
  - rewrite decide_False by (unfold keys_agree; congruence). done.
Qed.

Section merge_row.
Context (o : Order).

Local Abbreviation row := (merged_row o).

Lemma omap_partner_rows (l : list Ean) :
  omap (λ m, (λ e, (m, e)) <$> m_ean m)
       ((λ r : string * string, row (Some r.2))
          <$> ((λ e, (product_key (e_product e), e_ean e)) <$> l))
  = (λ e, (row (Some (e_ean e)), e_ean e)) <$> l.
Proof. induction l as [|e l IH]; [done|]. csimpl. by rewrite IH. Qed.

Lemma filter_partner_rows (l : list Ean) :
  filter (λ m, m_ean m = None)
         ((λ r : string * string, row (Some r.2))
            <$> ((λ e, (product_key (e_product e), e_ean e)) <$> l))
  = [].
Proof.
  induction l as [|e l IH]; [done|]. csimpl.
  rewrite filter_cons_False by done. apply IH.
Qed.

Lemma merge_row_matched eans :
  omap (λ m, (λ e, (m, e)) <$> m_ean m)
       (merge_row (o, product_key (o_product o)) (right_of eans))
  = (λ e, (row (Some (e_ean e)), e_ean e)) <$> partners eans o.
Proof.
  unfold merge_row. rewrite filter_right_of.
  destruct (partners eans o) as [|e0 ps]; [done|].
  apply (omap_partner_rows (e0 :: ps)).
Qed.

Lemma merge_row_unmatched eans :
  filter (λ m, m_ean m = None)
         (merge_row (o, product_key (o_product o)) (right_of eans))
  = if decide (partners eans o = []) then [row None] else [].
Proof.
  unfold merge_row. rewrite filter_right_of.
  destruct (partners eans o) as [|e0 ps]; [done|].
  rewrite decide_False by done.
  apply (filter_partner_rows (e0 :: ps)).
Qed.

End merge_row.

Lemma build_urls_matched orders eans :
  (build_urls orders eans).1 = sort_values (o ← orders; url_row o <$> partners eans o).
Proof.
  unfold build_urls. cbn [fst]. f_equal. fold (right_of eans).
  unfold merge.
  induction orders as [|o orders IH]; [done|].
  rewrite fmap_cons, !bind_cons, omap_app, fmap_app, IH. f_equal.
  rewrite merge_row_matched, <-list_fmap_compose. done.
Qed.

Lemma build_urls_unmatched orders eans :
  (build_urls orders eans).2
  = drop_duplicates (filter (λ o, partners eans o = []) orders).
Proof.
  unfold build_urls. cbn [snd]. f_equal. fold (right_of eans).
  unfold merge.
  induction orders as [|o orders IH]; [done|].
  rewrite fmap_cons, bind_cons, filter_app, fmap_app, IH, filter_cons.
  rewrite merge_row_unmatched.
  destruct (decide (partners eans o = [])); [|done]. by destruct o.
Qed.

Lemma elem_of_partners eans o e : e ∈ partners eans o ↔ keys_agree o e ∧ e ∈ eans.
Proof. apply list_elem_of_filter. Qed.

Lemma partners_nil eans o : partners eans o = [] ↔ ∀ e, e ∈ eans → ¬ keys_agree o e.
Proof.
  split.
  - intros Hnil e He Hk. eapply (filter_nil_not_elem_of _ _ e Hnil); done.
  - intros Hno. destruct (partners eans o) as [|e ps] eqn:E; [done|].
    assert (e ∈ partners eans o) as [? ?]%elem_of_partners by (rewrite E; left).
    by destruct (Hno e).
Qed.

Lemma elem_of_matched orders eans r :
  r ∈ (build_urls orders eans).1 ↔
  ∃ o e, o ∈ orders ∧ e ∈ eans ∧ keys_agree o e ∧ r = url_row o e.
Proof.
  rewrite build_urls_matched, sort_values_Permutation, list_elem_of_bind.
  split.
  - intros (o & (e & -> & [? ?]%elem_of_partners)%list_elem_of_fmap & ?). eauto 10.
  - intros (o & e & ? & ? & ? & ->). exists o. split; [|done].
    apply list_elem_of_fmap. exists e. by rewrite elem_of_partners.
Qed.

Lemma elem_of_unmatched orders eans o :
  o ∈ (build_urls orders eans).2 ↔
  o ∈ orders ∧ ∀ e, e ∈ eans → ¬ keys_agree o e.
Proof.
  rewrite build_urls_unmatched, elem_of_drop_duplicates, list_elem_of_filter.
  rewrite partners_nil. tauto.
Qed.

Lemma matched_or_unmatched orders eans o :
  o ∈ orders →
  (∃ e, e ∈ eans ∧ url_row o e ∈ (build_urls orders eans).1)
  ∨ o ∈ (build_urls orders eans).2.
Proof.
  intros Ho. destruct (partners eans o) as [|e ps] eqn:E.
  - right. apply elem_of_unmatched. by rewrite <-partners_nil.
  - left. assert (e ∈ partners eans o) as [? ?]%elem_of_partners by (rewrite E; left).
    exists e. split; [done|]. apply elem_of_matched. eauto 10.
Qed.



(** C3. The purchase orders occurring in the matched and unmatched
    outputs together are exactly those occurring in the input orders. *)
Theorem purchase_orders_preserved orders eans po :
  po ∈ (purchase_order <$> (build_urls orders eans).1)
        ++ (o_purchase_order <$> (build_urls orders eans).2)
  ↔ po ∈ o_purchase_order <$> orders.
Proof.
  rewrite elem_of_app, !list_elem_of_fmap. split.
  - intros [(r & -> & Hr)|(o & -> & Ho)].
    + apply elem_of_matched in Hr as (o & e & Ho & _ & _ & ->). by exists o.
    + exists o. split; [done|]. by apply elem_of_unmatched in Ho as [? _].
  - intros (o & -> & Ho).
    destruct (matched_or_unmatched orders eans o Ho) as [(e & He & Hr)|Hu].
    + left. by exists (url_row o e).
    + right. by exists o.
Qed.

(** ** Independence of the input order *)




(** ** The join condition *)

Lemma filter_keys_agree_pairs o eans :
  (λ p : Order * Ean, url_row p.1 p.2)
    <$> filter (λ p, keys_agree p.1 p.2) ((o,.) <$> eans)
  = url_row o <$> partners eans o.
Proof.
  unfold partners. induction eans as [|e eans IH]; [done|]. csimpl.
  rewrite !filter_cons. simpl.
  destruct (decide (keys_agree o e)); csimpl; by rewrite IH.
Qed.

Lemma join_rows_cprod orders eans :
  (o ← orders; url_row o <$> partners eans o)
  = (λ p : Order * Ean, url_row p.1 p.2)
      <$> filter (λ p, keys_agree p.1 p.2) (cprod orders eans).
Proof.
  unfold cprod, list_cprod.
  induction orders as [|o orders IH]; [done|].
  rewrite !bind_cons, filter_app, fmap_app, IH. f_equal.
  symmetry. apply filter_keys_agree_pairs.
Qed.

Lemma is_ascii_lstrip p s :
  Str.is_ascii s = true → Str.is_ascii (Str.lstrip_chars p s) = true.
Proof.
  induction s as [|c s IH]; [done|]. simpl.
  intros [Hc Hs]%andb_prop. destruct (p c); [by apply IH|].
  simpl. by rewrite Hc, Hs.
Qed.

Lemma is_ascii_rstrip p s :
  Str.is_ascii s = true → Str.is_ascii (Str.rstrip_chars p s) = true.
Proof.
  induction s as [|c s IH]; [done|].
  change (Str.is_ascii (String c s))
    with ((N_of_ascii c <? 128)%N && Str.is_ascii s).
  intros [Hc Hs]%andb_prop. rewrite rstrip_chars_cons.
  specialize (IH Hs).
  destruct (Str.rstrip_chars p s) as [|c' r].
  - destruct (p c); [done|]. simpl. by rewrite Hc.
  - change (Str.is_ascii (String c (String c' r)))
      with ((N_of_ascii c <? 128)%N && Str.is_ascii (String c' r)).
    by rewrite Hc, IH.
Qed.

(** On ASCII text the product key is the key of module [Str]. *)
Lemma product_key_ascii s :
  Str.is_ascii s = true → product_key s = Str.lower (Str.strip s).
Proof.
  intros Hs. unfold product_key.
  rewrite (py_strip_ascii s Hs), py_lower_ascii; [done|].
  unfold Str.strip. by apply is_ascii_rstrip, is_ascii_lstrip.
Qed.

(** C6. An order row and an EAN row join exactly when their products
    agree after trimming and lower-casing: the matched rows are, up to
    their order, one row for each pair of the Cartesian product of the
    inputs with that property, and an order is reported unmatched exactly
    when no EAN row has it. An order with product ["ABC "] joins the EAN
    record with product ["abc"]. *)
Theorem join_on_product_key orders eans :
  (build_urls orders eans).1
    ≡ₚ (λ p : Order * Ean, url_row p.1 p.2)
         <$> filter (λ p : Order * Ean,
                       py_lower (py_strip (o_product p.1))
                       = py_lower (py_strip (e_product p.2)))
                    (cprod orders eans)
  ∧ (∀ o, o ∈ (build_urls orders eans).2
          ↔ o ∈ orders
            ∧ ∀ e, e ∈ eans →
                   py_lower (py_strip (o_product o))
                   ≠ py_lower (py_strip (e_product e)))
  ∧ build_urls [mkOrder "PO1" "ABC " "http://x.com"] [mkEan "abc" "0012345"]
    = ([mkUrlRow "PO1" "ABC " "http://x.com" "0012345"
          "http://x.com/01/0012345/10/PO1"], []).
Proof.
  split_and!.
  - rewrite build_urls_matched, sort_values_Permutation, join_rows_cprod.
    f_equiv. by erewrite list_filter_iff.
  - intros o. apply elem_of_unmatched.
  - assert (keys_agree (mkOrder "PO1" "ABC " "http://x.com") (mkEan "abc" "0012345"))
      as Hk.
    { unfold keys_agree. simpl. by rewrite !product_key_ascii. }
    apply injective_projections.
    + rewrite build_urls_matched, bind_singleton. unfold partners.
      rewrite filter_cons_True by done. done.
    + rewrite build_urls_unmatched, filter_cons_False; [done|].
      unfold partners. by rewrite filter_cons_True.
Qed.

(** ** Absence of failures *)











(** ** Output writer *)

(** C9. The written workbook always has the sheet "urls", and has the
    sheet "unmatched_orders" exactly when there is an unmatched row. *)
Theorem write_output_sheets urls_df unmatched_df :
  "urls" ∈ (write_output urls_df unmatched_df).*1
  ∧ ("unmatched_orders" ∈ (write_output urls_df unmatched_df).*1
     ↔ unmatched_df ≠ [])
  ∧ (write_output urls_df [] = [("urls", UrlSheet urls_df)])
  ∧ (∀ eans_file orders_file wb,
        process_pair eans_file orders_file = Ok wb →
        ∃ urls unmatched,
          wb = write_output urls unmatched ∧ "urls" ∈ wb.*1).
Proof.
  assert (∀ u v, "urls" ∈ (write_output u v).*1) as Hurls.
  { intros u v. unfold write_output, to_excel.
    destruct (decide (v = [])); simpl; left. }
  split_and!.
  - apply Hurls.
  - unfold write_output, to_excel.
    destruct (decide (unmatched_df = [])) as [->|Hne]; simpl.
    + split; [|done]. intros Hin.
      apply elem_of_cons in Hin as [?|Hin]; [discriminate|].
      by apply elem_of_nil in Hin.
    + split; [done|]. intros _. right. left.
  - done.
  - intros eans_file orders_file wb. unfold process_pair.
    destruct (read_orders orders_file) as [orders|]; [|done].
    destruct (read_eans eans_file) as [eans|]; [|done]. cbn [mbind result_bind].
    destruct (build_urls orders eans) as [urls unmatched].
    destruct (writer_error urls unmatched); [done|].
    intros [= <-]. exists urls, unmatched. split; [done|]. apply Hurls.
Qed.

(** ** Column resolution *)

Section lower_map.
Implicit Types (df : DataFrame) (m : gmap string string).

Lemma foldl_lower_map_Some m df key c :
  foldl lower_map_add m df !! key = Some c →
  (c ∈ df.*1 ∧ header_key c = key) ∨ m !! key = Some c.
Proof.
  revert m. induction df as [|[h s] df IH]; intros m; simpl; [by right|].
  intros [[Hin Hk]|Hm]%IH.
  - left. split; [by right|done].
  - unfold lower_map_add in Hm; simpl in Hm.
    destruct (decide (py_lower (py_strip h) = key)) as [Heq|Hne].
    + rewrite <-Heq, lookup_insert_eq in Hm. injection Hm as <-.
      left. split; [left|done].
    + rewrite lookup_insert_ne in Hm by done. by right.
Qed.

Lemma foldl_lower_map_is_Some m df key :
  (∃ c, c ∈ df.*1 ∧ header_key c = key) ∨ is_Some (m !! key) →
  is_Some (foldl lower_map_add m df !! key).
Proof.
  revert m. induction df as [|[h s] df IH]; intros m; simpl.
  - intros [(c & Hin & _)|?]; [|done]. by apply elem_of_nil in Hin.
  - intros [(c & Hin & Hk)|Hm]; apply IH.
    + apply elem_of_cons in Hin as [->|Hin]; [|by eauto].
      right. unfold lower_map_add; simpl. unfold header_key in Hk.
      rewrite Hk, lookup_insert_eq. eauto.
    + right. unfold lower_map_add; simpl.
      destruct (decide (py_lower (py_strip h) = key)) as [<-|Hne].
      * rewrite lookup_insert_eq. eauto.
      * by rewrite lookup_insert_ne.
Qed.

Lemma lower_map_Some df key c :
  lower_map df !! key = Some c → c ∈ df.*1 ∧ header_key c = key.
Proof.
  intros [?|Hm]%foldl_lower_map_Some; [done|]. by rewrite lookup_empty in Hm.
Qed.

Lemma lower_map_None df key :
  lower_map df !! key = None ↔ ∀ c, c ∈ df.*1 → header_key c ≠ key.
Proof.
  split.
  - intros Hnone c Hin Hk.
    assert (is_Some (lower_map df !! key)) as [? Hs].
    { apply foldl_lower_map_is_Some. left. eauto. }
    congruence.
  - intros Hno. destruct (lower_map df !! key) as [c|] eqn:E; [|done].
    apply lower_map_Some in E as [Hin Hk]. by destruct (Hno c).
Qed.

End lower_map.

Lemma find_preferred_Some m names c :
  find_preferred m names = Some c →
  ∃ name, name ∈ names ∧ m !! py_lower name = Some c.
Proof.
  induction names as [|name names IH]; simpl; [done|].
  destruct (m !! py_lower name) as [c'|] eqn:E.
  - intros [= ->]. exists name. split; [left|done].
  - intros (n & ? & ?)%IH. exists n. split; [by right|done].
Qed.

Lemma find_preferred_None m names :
  find_preferred m names = None ↔
  ∀ name, name ∈ names → m !! py_lower name = None.
Proof.
  induction names as [|name names IH]; simpl.
  - split; [|done]. intros _ n Hn. by apply elem_of_nil in Hn.
  - destruct (m !! py_lower name) as [c'|] eqn:E.
    + split; [done|]. intros Hall. rewrite Hall in E by left. done.
    + rewrite IH. split.
      * intros Hall n [->|?]%elem_of_cons; eauto.
      * intros Hall n Hn. apply Hall. by right.
Qed.

Lemma getitem_label df c : c ∈ df.*1 → ∃ sel, getitem df c = Ok sel.
Proof.
  intros ([h s] & -> & Hin)%list_elem_of_fmap. unfold getitem.
  match goal with
  | |- context [match ?cols with [] => _ | _ => _ end] =>
      assert ((h, s) ∈ cols) as Hf by (by apply list_elem_of_filter);
      destruct cols as [|x [|y l]]
  end.
  - by apply elem_of_nil in Hf.
  - by eexists.
  - by eexists.
Qed.

Lemma find_preferred_no_alias df names :
  find_preferred (lower_map df) names = None ↔ no_alias df names.
Proof.
  rewrite find_preferred_None. unfold no_alias. split.
  - intros Hall name c Hn Hc Heq.
    eapply lower_map_None; [by apply Hall|done|done].
  - intros Hno name Hn. apply lower_map_None. intros c Hc Heq.
    by eapply Hno.
Qed.

Lemma iloc_in_range df i :
  0 ≤ i < Z.of_nat (length df) → ∃ s, iloc df i = Some s.
Proof.
  intros Hi. unfold iloc.
  destruct (lookup_lt_is_Some_2 df (Z.to_nat i)) as [[h s] Hs]; [lia|].
  rewrite Hs. by exists s.
Qed.

Lemma filter_label_other (l : DataFrame) h :
  (∀ c, c ∈ l → c.1 ≠ h) → filter (λ c : string * Series, c.1 = h) l = [].
Proof.
  induction l as [|c l IH]; intros Hl; [done|].
  rewrite filter_cons_False by (apply Hl; left).
  apply IH. intros c' ?. apply Hl. by right.
Qed.

Lemma filter_label_unique (df : DataFrame) h s :
  NoDup df.*1 → (h, s) ∈ df →
  filter (λ c : string * Series, c.1 = h) df = [(h, s)].
Proof.
  induction df as [|[h0 s0] df IH]; intros Hnodup Hin.
  - by apply elem_of_nil in Hin.
  - rewrite fmap_cons in Hnodup. apply NoDup_cons in Hnodup as [Hnotin Hnodup].
    apply elem_of_cons in Hin as [[= -> ->]|Hin].
    + rewrite filter_cons_True by done. f_equal.
      apply filter_label_other. intros [h' s'] Hc Heq. simpl in Heq. subst h'.
      apply Hnotin. apply list_elem_of_fmap. by exists (h0, s').
    + rewrite filter_cons_False; [by apply IH|].
      simpl. intros Heq. subst h0.
      apply Hnotin. apply list_elem_of_fmap. by exists (h, s).
Qed.

Lemma getitem_unique (df : DataFrame) h s :
  NoDup df.*1 → (h, s) ∈ df → getitem df h = Ok (SeriesOf s).
Proof. intros ??. unfold getitem. by rewrite (filter_label_unique df h s). Qed.

Lemma get_column_Err df names k e :
  get_column df names k = Err e →
  e = KeyError names k ∧ no_alias df names ∧ ¬ (0 ≤ k < Z.of_nat (length df)).
Proof.
  unfold get_column.
  destruct (find_preferred (lower_map df) names) as [c|] eqn:Hfind.
  - apply find_preferred_Some in Hfind as (name & _ & [Hc _]%lower_map_Some).
    destruct (getitem_label df c Hc) as [sel ->]. done.
  - apply find_preferred_no_alias in Hfind.
    destruct (decide (0 ≤ k < Z.of_nat (length df))) as [Hi|Hi].
    + by destruct (iloc_in_range df k Hi) as [s ->].
    + by intros [= <-].
Qed.

Lemma get_column_column (df : DataFrame) preferred_names k sel :
  NoDup df.*1 →
  get_column df preferred_names k = Ok sel →
  ∃ h s, (h, s) ∈ df ∧ sel = SeriesOf s
         ∧ ((∃ name, name ∈ preferred_names ∧ header_key h = py_lower name)
            ∨ (no_alias df preferred_names ∧ df !! Z.to_nat k = Some (h, s))).
Proof.
  intros Hnodup. unfold get_column.
  destruct (find_preferred (lower_map df) preferred_names) as [c|] eqn:Hfind.
  - apply find_preferred_Some in Hfind as (name & Hname & [Hc Hk]%lower_map_Some).
    apply list_elem_of_fmap in Hc as ([h s] & -> & Hin). cbn [fst] in *.
    rewrite (getitem_unique df h s) by done. intros [= <-].
    exists h, s. split_and!; [done..|]. left. eauto.
  - apply find_preferred_no_alias in Hfind.
    destruct (decide (0 ≤ k < Z.of_nat (length df))); [|done].
    unfold iloc. destruct (df !! Z.to_nat k) as [[h s]|] eqn:Hlk; [|done].
    intros [= <-]. exists h, s. split_and!; [|done|by right].
    by eapply list_elem_of_lookup_2.
Qed.


Lemma get_column_positional (df : DataFrame) names k h s :
  no_alias df names → 0 ≤ k → df !! Z.to_nat k = Some (h, s) →
  get_column df names k = Ok (SeriesOf s).
Proof.
  intros Hno%find_preferred_no_alias Hk Hlk. unfold get_column, iloc.
  rewrite Hno, Hlk.
  apply lookup_lt_Some in Hlk. by rewrite decide_True by lia.
Qed.


(** ** The product column *)

Lemma lstrip_chars_head p s :
  Str.lstrip_chars p s = EmptyString
  ∨ ∃ c t, Str.lstrip_chars p s = String c t ∧ p c = false.
Proof.
  induction s as [|c s IH]; simpl; [by left|].
  destruct (p c) eqn:Hc; [done|]. right. eauto.
Qed.

Lemma strip_idemp s : Str.strip (Str.strip s) = Str.strip s.
Proof.
  unfold Str.strip.
  destruct (lstrip_chars_head Str.is_whitespace s) as [->|(c & t & -> & Hc)]; [done|].
  assert (Str.lstrip_chars Str.is_whitespace
            (Str.rstrip_chars Str.is_whitespace (String c t))
          = Str.rstrip_chars Str.is_whitespace (String c t)) as ->.
  { rewrite rstrip_chars_cons, Hc.
    destruct (Str.rstrip_chars Str.is_whitespace t); simpl; by rewrite Hc. }
  apply rstrip_chars_idemp.
Qed.

Lemma header_key_strip h : header_key (py_strip h) = header_key h.
Proof. unfold header_key. by rewrite py_strip_idemp. Qed.

(** The accepted aliases are in lower case. *)
Lemma names_lower n :
  n ∈ purchase_order_names ++ product_names ++ base_url_names ++ ean_names →
  py_lower n = n.
Proof.
  intros Hn.
  unfold purchase_order_names, product_names, base_url_names, ean_names in Hn.
  simpl in Hn.
  repeat (apply elem_of_cons in Hn as [->|Hn];
          [by rewrite py_lower_ascii|]).
  by apply elem_of_nil in Hn.
Qed.

Lemma product_names_lower n : n ∈ product_names → py_lower n = n.
Proof. intros Hn. apply names_lower. rewrite !elem_of_app. tauto. Qed.

Lemma get_column_fallback df names k sel :
  no_alias df names →
  get_column df names k = Ok sel →
  ∃ h s, df !! Z.to_nat k = Some (h, s) ∧ sel = SeriesOf s.
Proof.
  intros Hno%find_preferred_no_alias. unfold get_column, iloc. rewrite Hno.
  destruct (decide (0 ≤ k < Z.of_nat (length df))); [|done].
  destruct (df !! Z.to_nat k) as [[h s]|]; [|done].
  intros [= <-]. eauto.
Qed.

Lemma get_column_sku (pre post : DataFrame) h s k :
  header_key h = "sku" →
  (∀ c, c ∈ pre ++ post → header_key c.1 ∉ product_names) →
  get_column (pre ++ (h, s) :: post) product_names k = Ok (SeriesOf s).
Proof.
  intros Hh Hothers. set (df := pre ++ (h, s) :: post).
  assert (∀ c, c ∈ df.*1 → c = h ∨ header_key c ∉ product_names) as Hcols.
  { intros c ([c' s'] & -> & Hin)%list_elem_of_fmap. unfold df in Hin.
    rewrite elem_of_app, elem_of_cons in Hin.
    destruct Hin as [Hin|[[= -> ->]|Hin]]; [right|by left|right];
      apply (Hothers (c', s')); rewrite elem_of_app; tauto. }
  assert (∀ key, key ∈ product_names → key ≠ "sku" → lower_map df !! key = None)
    as Hnone.
  { intros key Hkey Hne. apply lower_map_None.
    intros c [->|Hc]%Hcols; [congruence|].
    intros Heq. apply Hc. by rewrite Heq. }
  assert (lower_map df !! "sku" = Some h) as Hsku.
  { destruct (foldl_lower_map_is_Some ∅ df "sku") as [c Hc].
    { left. exists h. split; [|done]. unfold df.
      rewrite fmap_app, fmap_cons, elem_of_app, elem_of_cons. tauto. }
    fold (lower_map df) in Hc. rewrite Hc. f_equal.
    apply lower_map_Some in Hc as [[->|Hc]%Hcols Hk]; [done|].
    destruct Hc. rewrite Hk. unfold product_names. set_solver. }
  unfold get_column, product_names. cbn [find_preferred].
  rewrite !product_names_lower by compute_done.
  rewrite (Hnone "product"), (Hnone "product_code"), Hsku;
    [|unfold product_names; set_solver|done|unfold product_names; set_solver|done].
  unfold getitem, df. rewrite filter_app, filter_cons_True by done.
  assert (∀ l : DataFrame, (∀ c, c ∈ l → c ∈ pre ++ post) →
            filter (λ c : string * Series, c.1 = h) l = []) as Hnil.
  { intros l Hl. apply filter_label_other. intros c Hc%Hl%Hothers Heq.
    apply Hc. rewrite Heq, Hh. unfold product_names. set_solver. }
  rewrite !Hnil; [done|set_solver..].
Qed.

Lemma normalize_column_names_lookup (df : DataFrame) i h s :
  normalize_column_names df !! i = Some (h, s) →
  ∃ h0, df !! i = Some (h0, s) ∧ h = py_strip h0.
Proof.
  unfold normalize_column_names. rewrite list_lookup_fmap.
  destruct (df !! i) as [[h0 s0]|]; [|done]. intros [= <- <-]. eauto.
Qed.

Lemma no_alias_normalized (df : DataFrame) :
  (∀ c, c ∈ df → header_key c.1 ∉ product_names) →
  no_alias (normalize_column_names df) product_names.
Proof.
  intros Hdf name c Hname Hc Heq.
  apply list_elem_of_fmap in Hc as ([h s] & -> & Hc).
  apply list_elem_of_fmap in Hc as (c0 & [= -> _] & Hc0).
  apply (Hdf c0 Hc0). cbn [fst] in Heq.
  fold (header_key (py_strip c0.1)) in Heq. rewrite header_key_strip in Heq.
  by rewrite <-Heq, product_names_lower.
Qed.

Lemma get_column_sku_normalized (pre post : DataFrame) h s k :
  header_key h = "sku" →
  (∀ c, c ∈ pre ++ post → header_key c.1 ∉ product_names) →
  get_column (normalize_column_names (pre ++ (h, s) :: post)) product_names k
  = Ok (SeriesOf s).
Proof.
  intros Hh Hothers. unfold normalize_column_names.
  rewrite fmap_app, fmap_cons. simpl. apply get_column_sku.
  - by rewrite header_key_strip.
  - intros c. rewrite <-fmap_app. intros (c0 & -> & Hc0)%list_elem_of_fmap.
    simpl. rewrite header_key_strip. by apply Hothers.
Qed.

(** What [read_orders] and [read_eans] return once the product column
    is known to be [s]. *)
Lemma read_orders_product (df : DataFrame) s rows :
  get_column (normalize_column_names df) product_names 1 = Ok (SeriesOf s) →
  read_orders df = Ok rows →
  ∃ po base,
    get_column (normalize_column_names df) purchase_order_names 0 = Ok (SeriesOf po)
    ∧ get_column (normalize_column_names df) base_url_names 2 = Ok (SeriesOf base)
    ∧ rows = orders_frame (clean po) (clean s) (clean base).
Proof.
  intros Hprod. unfold read_orders. rewrite Hprod.
  destruct (get_column _ purchase_order_names 0) as [[po|?]|];
    destruct (get_column _ base_url_names 2) as [[base|?]|];
    cbn [mbind result_bind str_strip]; try done.
  intros [= <-]. eauto.
Qed.

Lemma read_eans_product (df : DataFrame) s rows :
  get_column (normalize_column_names df) product_names 0 = Ok (SeriesOf s) →
  read_eans df = Ok rows →
  ∃ e,
    get_column (normalize_column_names df) ean_names 1 = Ok (SeriesOf e)
    ∧ rows = eans_frame (clean s) (clean e).
Proof.
  intros Hprod. unfold read_eans. rewrite Hprod.
  destruct (get_column _ ean_names 1) as [[e|?]|];
    cbn [mbind result_bind str_strip]; try done.
  intros [= <-]. eauto.
Qed.

Lemma get_column_product_fallback (df : DataFrame) k sel :
  (∀ c, c ∈ df → header_key c.1 ∉ product_names) →
  get_column (normalize_column_names df) product_names k = Ok sel →
  ∃ h s, df !! Z.to_nat k = Some (h, s) ∧ sel = SeriesOf s.
Proof.
  intros Hno%no_alias_normalized Hget.
  destruct (get_column_fallback _ _ _ _ Hno Hget) as (h & s & Hlk & ->).
  apply normalize_column_names_lookup in Hlk as (h0 & ? & _). eauto.
Qed.

(** C7, amended. A column whose header reads "SKU" in any case, in a
    table where no other header is a product alias, supplies the product
    field of both readers. When no header is a product alias, the product
    field comes from the column at index 1 for the orders table and from
    the column at index 0 for the EAN table. *)
Theorem product_column_resolution (df : DataFrame) :
  (∀ pre h s post,
      df = pre ++ (h, s) :: post →
      header_key h = "sku" →
      (∀ c, c ∈ pre ++ post → header_key c.1 ∉ product_names) →
      (∀ rows, read_orders df = Ok rows →
         ∃ po base,
           get_column (normalize_column_names df) purchase_order_names 0
             = Ok (SeriesOf po)
           ∧ get_column (normalize_column_names df) base_url_names 2
             = Ok (SeriesOf base)
           ∧ rows = orders_frame (clean po) (clean s) (clean base))
      ∧ (∀ rows, read_eans df = Ok rows →
           ∃ e,
             get_column (normalize_column_names df) ean_names 1 = Ok (SeriesOf e)
             ∧ rows = eans_frame (clean s) (clean e)))
  ∧ ((∀ c, c ∈ df → header_key c.1 ∉ product_names) →
     (∀ rows, read_orders df = Ok rows →
        ∃ h s po base,
          df !! 1%nat = Some (h, s)
          ∧ get_column (normalize_column_names df) purchase_order_names 0
            = Ok (SeriesOf po)
          ∧ get_column (normalize_column_names df) base_url_names 2
            = Ok (SeriesOf base)
          ∧ rows = orders_frame (clean po) (clean s) (clean base))
     ∧ (∀ rows, read_eans df = Ok rows →
          ∃ h s e,
            df !! 0%nat = Some (h, s)
            ∧ get_column (normalize_column_names df) ean_names 1 = Ok (SeriesOf e)
            ∧ rows = eans_frame (clean s) (clean e))).
Proof.
  split.
  - intros pre h s post -> Hh Hothers. split; intros rows Hrows.
    + eapply read_orders_product; [|done]. by apply get_column_sku_normalized.
    + eapply read_eans_product; [|done]. by apply get_column_sku_normalized.
  - intros Hno. split; intros rows Hrows.
    + destruct (get_column (normalize_column_names df) product_names 1)
        as [sel|e] eqn:Hget.
      * destruct (get_column_product_fallback df 1 sel Hno Hget)
          as (h & s & Hlk & ->).
        destruct (read_orders_product df s rows Hget Hrows)
          as (po & base & ? & ? & ?).
        exists h, s, po, base. done.
      * unfold read_orders in Hrows. rewrite Hget in Hrows.
        by destruct (get_column _ purchase_order_names 0).
    + destruct (get_column (normalize_column_names df) product_names 0)
        as [sel|e] eqn:Hget.
      * destruct (get_column_product_fallback df 0 sel Hno Hget)
          as (h & s & Hlk & ->).
        destruct (read_eans_product df s rows Hget Hrows) as (e & ? & ?).
        exists h, s, e. done.
      * unfold read_eans in Hrows. by rewrite Hget in Hrows.
Qed.

(** ** File-pair discovery *)

Section pydict.
Context {V : Type}.
Implicit Types (d : pydict V) (k : string) (v : V).

Lemma dict_get_set d k v k' :
  dict_get (dict_set d k v) k' = if decide (k = k') then Some v else dict_get d k'.
Proof.
  induction d as [|[k0 v0] d IH]; simpl.
  - destruct (decide (k = k')); done.
  - destruct (decide (k0 = k)) as [->|Hne]; simpl.
    + destruct (decide (k = k')); done.
    + destruct (decide (k0 = k')) as [->|?]; [by rewrite decide_False|done].
Qed.



End pydict.

Lemma endswith_eans_not_orders s :
  Str.endswith s "_eans" = true → Str.endswith s "_orders" = false.
Proof.
  unfold Str.endswith.
  change (String.rev "_eans") with "snae_".
  change (String.rev "_orders") with "sredro_".
  destruct (String.rev s) as [|c1 [|c2 t]]; simpl; [done|..].
  - destruct (decide (c1 = "s"%char)); done.
  - destruct (decide (c1 = "s"%char)); [|done].
    destruct (decide (c2 = "n"%char)) as [->|]; [|done]. done.
Qed.

Lemma scan_path_cases E O path :
  (recognised "_eans" (Str.drop_last 5 (stem path)) path
   ∧ scan_path (E, O) path = (dict_set E (Str.drop_last 5 (stem path)) path, O))
  ∨ (recognised "_orders" (Str.drop_last 7 (stem path)) path
     ∧ scan_path (E, O) path = (E, dict_set O (Str.drop_last 7 (stem path)) path))
  ∨ ((∀ b, ¬ recognised "_eans" b path) ∧ (∀ b, ¬ recognised "_orders" b path)
     ∧ scan_path (E, O) path = (E, O)).
Proof.
  unfold scan_path, recognised.
  destruct (Str.endswith (Str.lower (stem path)) "_eans") eqn:He.
  - left. done.
  - destruct (Str.endswith (Str.lower (stem path)) "_orders") eqn:Ho.
    + right. left. done.
    + right. right. split_and!; [by intros b [? _]|by intros b [? _]|done].
Qed.

Lemma recognised_eans_not_orders b b' path :
  recognised "_eans" b path → ¬ recognised "_orders" b' path.
Proof.
  intros [He _] [Ho _]. apply endswith_eans_not_orders in He. congruence.
Qed.





(** * Further properties of the join engine *)

Lemma sort_insert_stable (P : UrlRow → Prop) `{!∀ r, Decision (P r)} r l :
  (∀ x, P r → P x → key_le r x) →
  filter P (sort_insert r l) = filter P (r :: l).
Proof.
  intros Hclass. induction l as [|x l IH]; [done|]. simpl.
  destruct (decide (key_le r x)) as [Hle|Hnle]; [done|].
  rewrite filter_cons, IH, !filter_cons.
  destruct (decide (P x)) as [Hx|Hx], (decide (P r)) as [Hr|Hr]; try done.
  destruct Hnle. by apply Hclass.
Qed.

Lemma key_le_same_key r x : sort_key r = sort_key x → key_le r x.
Proof. unfold key_le. intros ->. reflexivity. Qed.

Lemma sort_values_stable k l :
  filter (λ r, sort_key r = k) (sort_values l) = filter (λ r, sort_key r = k) l.
Proof.
  induction l as [|r l IH]; [done|]. simpl.
  rewrite sort_insert_stable.
  - by rewrite !filter_cons, IH.
  - intros x Hr Hx. apply key_le_same_key. congruence.
Qed.

(** X1. The matched rows are in ascending order of (product,
    purchase_order, ean), every earlier row being below every later one;
    rows sharing a key stand in the order of the join: by input order of
    the orders, then by input order of the EAN records. *)
Theorem matched_sorted_stable orders eans :
  StronglySorted key_le (build_urls orders eans).1
  ∧ ∀ k, filter (λ r, sort_key r = k) (build_urls orders eans).1
         = filter (λ r, sort_key r = k)
             (o ← orders; url_row o <$> partners eans o).
Proof.
  rewrite build_urls_matched. split.
  - apply Sorted_StronglySorted; [apply _|apply Sorted_sort_values].
  - intros k. apply sort_values_stable.
Qed.

Lemma drop_duplicates_from_sublist {A} `{EqDecision A} (seen l : list A) :
  drop_duplicates_from seen l `sublist_of` l.
Proof.
  revert seen. induction l as [|x l IH]; intros seen; simpl; [done|].
  destruct (decide (x ∈ seen)); [by apply sublist_cons|by apply sublist_skip].
Qed.

(** X2. The unmatched rows are a subsequence of the input orders: they
    keep the input order, and none is repeated. *)
Theorem unmatched_subsequence orders eans :
  (build_urls orders eans).2 `sublist_of` orders
  ∧ NoDup (build_urls orders eans).2.
Proof.
  rewrite build_urls_unmatched. split.
  - etrans; [apply drop_duplicates_from_sublist|apply sublist_filter].
  - apply NoDup_drop_duplicates.
Qed.

Lemma length_join_rows orders eans :
  length (o ← orders; url_row o <$> partners eans o)
  = sum_list_with (λ o, length (partners eans o)) orders.
Proof.
  induction orders as [|o orders IH]; [done|].
  rewrite bind_cons, length_app, length_fmap, IH. done.
Qed.

(** X3. The number of matched rows is the number of (order, EAN record)
    pairs with equal product key: each order contributes one row per
    EAN record sharing its key. *)
Theorem matched_row_count orders eans :
  length (build_urls orders eans).1
  = sum_list_with (λ o, length (partners eans o)) orders.
Proof.
  rewrite build_urls_matched, sort_values_Permutation. apply length_join_rows.
Qed.

Lemma partners_unique_key eans o :
  NoDup ((λ e, product_key (e_product e)) <$> eans) →
  (length (partners eans o) ≤ 1)%nat.
Proof.
  unfold partners. induction eans as [|e eans IH]; [simpl; lia|].
  rewrite fmap_cons, NoDup_cons. intros [Hnotin Hnodup].
  rewrite filter_cons. destruct (decide (keys_agree o e)) as [Hk|?]; [|by apply IH].
  assert (filter (λ e0, keys_agree o e0) eans = []) as ->; [|simpl; lia].
  destruct (filter (λ e0, keys_agree o e0) eans) as [|e' l] eqn:E; [done|].
  assert (e' ∈ filter (λ e0, keys_agree o e0) eans) as [Hk' Hin]%list_elem_of_filter
    by (rewrite E; left).
  destruct Hnotin. apply list_elem_of_fmap. exists e'. split; [|done].
  unfold keys_agree in *. congruence.
Qed.

(** X4. When no two EAN records share a product key, the join does not
    multiply rows: there is exactly one matched row for each order that
    has a partner, so at most as many matched rows as orders. *)
Theorem matched_rows_unique_keys orders eans :
  NoDup ((λ e, product_key (e_product e)) <$> eans) →
  length (build_urls orders eans).1
  = length (filter (λ o, partners eans o ≠ []) orders)
  ∧ (length (build_urls orders eans).1 ≤ length orders)%nat.
Proof.
  intros Hkeys.
  assert (length (build_urls orders eans).1
          = length (filter (λ o, partners eans o ≠ []) orders)) as Hlen.
  { rewrite build_urls_matched, sort_values_Permutation, length_join_rows.
    induction orders as [|o orders IH]; [done|].
    rewrite filter_cons. cbn [sum_list_with]. rewrite IH.
    pose proof (partners_unique_key eans o Hkeys) as Hone.
    destruct (decide (partners eans o ≠ [])) as [Hne|Heq].
    - destruct (partners eans o) as [|e [|e' l]]; simpl in *; [done|lia|lia].
    - destruct (partners eans o) as [|e l]; [done|]. by destruct Heq. }
  split; [done|]. rewrite Hlen. apply length_filter.
Qed.

Lemma string_app_cons c s t : String c s +:+ t = String c (s +:+ t).
Proof. reflexivity. Qed.

Lemma rstrip_chars_suffix p s :
  ∃ t, s = Str.rstrip_chars p s +:+ t
       ∧ Forall (λ c, p c = true) (String.list_ascii_of_string t).
Proof.
  induction s as [|c s (t & Hs & Ht)]; [by exists ""|].
  rewrite rstrip_chars_cons.
  destruct (Str.rstrip_chars p s) as [|c' r] eqn:E.
  - destruct (p c) eqn:Hc.
    + exists (String c t). split; [by rewrite Hs at 1|].
      simpl. by constructor.
    + exists t. split; [by rewrite Hs at 1|done].
  - exists t. split; [|done]. by rewrite Hs at 1.
Qed.

Lemma rstrip_chars_last p s t c :
  Str.rstrip_chars p s = t +:+ String c "" → p c = false.
Proof.
  revert t. induction s as [|a s IH]; intros t.
  - destruct t; discriminate.
  - rewrite rstrip_chars_cons.
    destruct (Str.rstrip_chars p s) as [|c' r] eqn:E.
    + destruct (p a) eqn:Ha; [destruct t; discriminate|].
      destruct t as [|b [|b' t]]; [|discriminate..]. by intros [= <-].
    + destruct t as [|b t]; [discriminate|].
      rewrite string_app_cons. intros [= <- Hr]. by apply (IH t).
Qed.

(** X5. Stripping a base URL removes only a run of ["/"] from its end,
    and what is left does not end in ["/"]. *)
Theorem normalize_base_trailing url :
  (∃ t, url = normalize_base url +:+ t
        ∧ Forall (λ c, c = "/"%char) (String.list_ascii_of_string t))
  ∧ (∀ t, normalize_base url ≠ t +:+ "/").
Proof.
  unfold normalize_base. split.
  - destruct (rstrip_chars_suffix Str.is_slash url) as (t & Hs & Ht).
    exists t. split; [done|]. eapply Forall_impl; [exact Ht|].
    intros c. unfold Str.is_slash. by destruct (decide (c = "/"%char)).
  - intros t Ht%rstrip_chars_last. done.
Qed.

(** X6. No product key is on both sides: an order reported unmatched
    shares its product key with no matched row. *)
Theorem unmatched_key_not_matched orders eans o r :
  o ∈ (build_urls orders eans).2 →
  r ∈ (build_urls orders eans).1 →
  product_key (product r) ≠ product_key (o_product o).
Proof.
  intros [_ Hno]%elem_of_unmatched (o' & e & _ & He & Hk & ->)%elem_of_matched.
  simpl. intros Heq. apply (Hno e He). unfold keys_agree in *. congruence.
Qed.

Lemma partners_app eans1 eans2 o :
  partners (eans1 ++ eans2) o = partners eans1 o ++ partners eans2 o.
Proof. apply filter_app. Qed.

(** X7. The join distributes over appended inputs: the matched rows of
    [orders1 ++ orders2] are those of both parts together, and likewise
    for appended EAN tables; an order is unmatched against the whole order
    list exactly when it is unmatched in one of the parts. *)
Theorem build_urls_app orders1 orders2 eans1 eans2 :
  (build_urls (orders1 ++ orders2) eans1).1
    ≡ₚ (build_urls orders1 eans1).1 ++ (build_urls orders2 eans1).1
  ∧ (build_urls orders1 (eans1 ++ eans2)).1
    ≡ₚ (build_urls orders1 eans1).1 ++ (build_urls orders1 eans2).1
  ∧ (∀ o, o ∈ (build_urls (orders1 ++ orders2) eans1).2
          ↔ o ∈ (build_urls orders1 eans1).2 ∨ o ∈ (build_urls orders2 eans1).2)
  ∧ (∀ o, o ∈ (build_urls orders1 (eans1 ++ eans2)).2
          ↔ o ∈ (build_urls orders1 eans1).2 ∧ o ∈ (build_urls orders1 eans2).2).
Proof.
  split_and!.
  - rewrite !build_urls_matched, !sort_values_Permutation. by rewrite bind_app.
  - rewrite !build_urls_matched, !sort_values_Permutation.
    induction orders1 as [|o orders1 IH]; [done|].
    rewrite !bind_cons, IH, partners_app, fmap_app.
    rewrite <-!(assoc_L (++)). f_equiv.
    rewrite !(assoc_L (++)). f_equiv. apply Permutation_app_comm.
  - intros o. rewrite !elem_of_unmatched, elem_of_app. tauto.
  - intros o. rewrite !elem_of_unmatched. setoid_rewrite elem_of_app.
    split; [|intros [[? H1] [_ H2]]; split; [done|]; intros e [?|?]; eauto].
    intros [? Hno]. split; (split; [done|]); intros e ?; apply Hno; tauto.
Qed.

(** * Further properties of column resolution and the readers *)

(** X9. Once some accepted alias matches a column name, the fallback
    index plays no part: [get_column] gives the same result for every
    index. *)
Theorem get_column_alias_ignores_fallback df preferred_names k k' :
  ¬ no_alias df preferred_names →
  get_column df preferred_names k = get_column df preferred_names k'.
Proof.
  intros Hyes. unfold get_column.
  destruct (find_preferred (lower_map df) preferred_names) eqn:Hfind; [done|].
  by apply find_preferred_no_alias in Hfind.
Qed.

(** X10. On a table whose column labels are pairwise different,
    [get_column] returns one column of the table, never a sub-frame:
    either a column whose trimmed, lower-cased label is an accepted alias,
    or, when no alias matches, the column at the fallback index. *)
Theorem get_column_unique_labels (df : DataFrame) preferred_names k sel :
  NoDup df.*1 →
  get_column df preferred_names k = Ok sel →
  ∃ h s, (h, s) ∈ df ∧ sel = SeriesOf s
         ∧ ((∃ name, name ∈ preferred_names ∧ header_key h = py_lower name)
            ∨ (no_alias df preferred_names ∧ df !! Z.to_nat k = Some (h, s))).
Proof. apply get_column_column. Qed.

Lemma find_preferred_app m before name rest c :
  (∀ n, n ∈ before → m !! py_lower n = None) →
  m !! py_lower name = Some c →
  find_preferred m (before ++ name :: rest) = Some c.
Proof.
  intros Hbefore Hname. induction before as [|n before IH]; simpl.
  - by rewrite Hname.
  - rewrite Hbefore by left. apply IH. intros n' ?. apply Hbefore. by right.
Qed.

(** X11. The accepted aliases are tried in the order given: on a table
    whose trimmed, lower-cased labels are pairwise different, the column
    matching a name is returned when no earlier name matches any column,
    whatever the later names and the fallback index are. *)
Theorem get_column_first_alias (df : DataFrame) before name rest k h s :
  NoDup (header_key <$> df.*1) →
  (h, s) ∈ df →
  header_key h = py_lower name →
  no_alias df before →
  get_column df (before ++ name :: rest) k = Ok (SeriesOf s).
Proof.
  intros Hkeys Hin Hh Hbefore.
  assert (NoDup df.*1) as Hlabels by by eapply NoDup_fmap_1.
  assert (lower_map df !! py_lower name = Some h) as Hname.
  { destruct (foldl_lower_map_is_Some ∅ df (py_lower name)) as [c Hc].
    { left. exists h. split; [|done]. apply list_elem_of_fmap. by exists (h, s). }
    fold (lower_map df) in Hc. rewrite Hc. f_equal.
    apply lower_map_Some in Hc as [Hc Hk].
    assert (h ∈ df.*1) as Hh' by (apply list_elem_of_fmap; by exists (h, s)).
    apply list_elem_of_lookup in Hc as [i Hi], Hh' as [j Hj].
    assert (i = j) as ->; [|congruence].
    eapply NoDup_lookup; [exact Hkeys|..]; rewrite list_lookup_fmap.
    - by rewrite Hi.
    - rewrite Hj. simpl. congruence. }
  unfold get_column. rewrite (find_preferred_app _ before name rest h).
  - by apply getitem_unique.
  - intros n Hn. apply lower_map_None. intros c Hc Heq.
    by apply (Hbefore n c).
  - done.
Qed.

(** ** Rows kept by the readers *)

Lemma replace_na_present s : present s → replace_na s = Some s.
Proof. intros [? ?]. unfold replace_na. rewrite decide_False; [done|tauto]. Qed.

Lemma replace_na_absent s : ¬ present s → replace_na s = None.
Proof.
  intros Hs. unfold replace_na. destruct (decide (s = "" ∨ s = "nan")); [done|].
  destruct Hs. split; tauto.
Qed.

Lemma orders_frame_filter po p b :
  orders_frame po p b = filter order_present (order_rows po p b).
Proof.
  unfold orders_frame, order_rows.
  induction (zip (zip po p) b) as [|[[x y] z] l IH]; [done|].
  csimpl. rewrite filter_cons, <-IH. unfold order_present; simpl.
  destruct (decide (present x)) as [Hx|Hx];
    [rewrite (replace_na_present x Hx)|rewrite (replace_na_absent x Hx)]; simpl;
    [|rewrite decide_False by tauto; done].
  destruct (decide (present y)) as [Hy|Hy];
    [rewrite (replace_na_present y Hy)|rewrite (replace_na_absent y Hy)]; simpl;
    [|rewrite decide_False by tauto; done].
  destruct (decide (present z)) as [Hz|Hz];
    [rewrite (replace_na_present z Hz)|rewrite (replace_na_absent z Hz)]; simpl;
    [|rewrite decide_False by tauto; done].
  by rewrite decide_True.
Qed.

Lemma eans_frame_filter p e :
  eans_frame p e = filter ean_present (ean_rows p e).
Proof.
  unfold eans_frame, ean_rows.
  induction (zip p e) as [|[x y] l IH]; [done|].
  csimpl. rewrite filter_cons, <-IH. unfold ean_present; simpl.
  destruct (decide (present x)) as [Hx|Hx];
    [rewrite (replace_na_present x Hx)|rewrite (replace_na_absent x Hx)]; simpl;
    [|rewrite decide_False by tauto; done].
  destruct (decide (present y)) as [Hy|Hy];
    [rewrite (replace_na_present y Hy)|rewrite (replace_na_absent y Hy)]; simpl;
    [|rewrite decide_False by tauto; done].
  by rewrite decide_True.
Qed.

Lemma read_orders_columns (df : DataFrame) rows :
  read_orders df = Ok rows →
  ∃ po p b,
    get_column (normalize_column_names df) purchase_order_names 0 = Ok (SeriesOf po)
    ∧ get_column (normalize_column_names df) product_names 1 = Ok (SeriesOf p)
    ∧ get_column (normalize_column_names df) base_url_names 2 = Ok (SeriesOf b)
    ∧ rows = orders_frame (clean po) (clean p) (clean b).
Proof.
  unfold read_orders.
  destruct (get_column _ purchase_order_names 0) as [[po|?]|];
    destruct (get_column _ product_names 1) as [[p|?]|];
    destruct (get_column _ base_url_names 2) as [[b|?]|];
    cbn [mbind result_bind str_strip]; try done.
  intros [= <-]. by exists po, p, b.
Qed.

Lemma read_eans_columns (df : DataFrame) rows :
  read_eans df = Ok rows →
  ∃ p c,
    get_column (normalize_column_names df) product_names 0 = Ok (SeriesOf p)
    ∧ get_column (normalize_column_names df) ean_names 1 = Ok (SeriesOf c)
    ∧ rows = eans_frame (clean p) (clean c).
Proof.
  unfold read_eans.
  destruct (get_column _ product_names 0) as [[p|?]|];
    destruct (get_column _ ean_names 1) as [[c|?]|];
    cbn [mbind result_bind str_strip]; try done.
  intros [= <-]. by exists p, c.
Qed.

Lemma elem_of_clean s x : x ∈ clean s → py_strip x = x.
Proof. intros (c & -> & _)%list_elem_of_fmap. apply py_strip_idemp. Qed.

Lemma elem_of_order_rows po p b o :
  o ∈ order_rows po p b →
  o_purchase_order o ∈ po ∧ o_product o ∈ p ∧ o_base_url o ∈ b.
Proof.
  intros ([[x y] z] & -> & Hin)%list_elem_of_fmap. simpl.
  apply elem_of_zip_l in Hin as Hxy. apply elem_of_zip_r in Hin.
  apply elem_of_zip_l in Hxy as Hx. apply elem_of_zip_r in Hxy. done.
Qed.

Lemma elem_of_ean_rows p e r :
  r ∈ ean_rows p e → e_product r ∈ p ∧ e_ean r ∈ e.
Proof.
  intros ([x y] & -> & Hin)%list_elem_of_fmap. simpl.
  apply elem_of_zip_l in Hin as Hx. by apply elem_of_zip_r in Hin.
Qed.

(** X13. Every order row that [read_orders] returns is normalised: each
    of its three fields is trimmed and is neither empty nor the text
    "nan". *)
Theorem read_orders_normalized (df : DataFrame) rows o :
  read_orders df = Ok rows → o ∈ rows →
  order_present o
  ∧ py_strip (o_purchase_order o) = o_purchase_order o
  ∧ py_strip (o_product o) = o_product o
  ∧ py_strip (o_base_url o) = o_base_url o.
Proof.
  intros (po & p & b & _ & _ & _ & ->)%read_orders_columns.
  rewrite orders_frame_filter.
  intros [Hpres (Hpo & Hp & Hb)%elem_of_order_rows]%list_elem_of_filter.
  split_and!; [done|by eapply elem_of_clean..].
Qed.

(** X14. Every row that [read_eans] returns is normalised in the same
    way: product and ean are trimmed, non-empty and not "nan". *)
Theorem read_eans_normalized (df : DataFrame) rows e :
  read_eans df = Ok rows → e ∈ rows →
  ean_present e
  ∧ py_strip (e_product e) = e_product e
  ∧ py_strip (e_ean e) = e_ean e.
Proof.
  intros (p & c & _ & _ & ->)%read_eans_columns.
  rewrite eans_frame_filter.
  intros [Hpres (Hp & He)%elem_of_ean_rows]%list_elem_of_filter.
  split_and!; [done|by eapply elem_of_clean..].
Qed.



Lemma no_alias_normalized_names (df : DataFrame) names :
  (∀ n, n ∈ names → py_lower n = n) →
  (∀ c, c ∈ df → header_key c.1 ∉ names) →
  no_alias (normalize_column_names df) names.
Proof.
  intros Hlower Hdf name c Hname Hc Heq.
  apply list_elem_of_fmap in Hc as ([h s] & -> & Hc).
  apply list_elem_of_fmap in Hc as (c0 & [= -> _] & Hc0).
  apply (Hdf c0 Hc0). cbn [fst] in Heq.
  fold (header_key (py_strip c0.1)) in Heq. rewrite header_key_strip in Heq.
  rewrite <-Heq. by rewrite Hlower.
Qed.

Lemma order_names_lower n :
  n ∈ purchase_order_names ++ product_names ++ base_url_names → py_lower n = n.
Proof. intros Hn. apply names_lower. rewrite !elem_of_app in *. tauto. Qed.

(** X16. A table none of whose headers is an accepted alias is read by
    position: purchase order, product and base URL are the first three
    columns; with fewer than three columns [read_orders] raises
    [KeyError]. *)
Theorem read_orders_positional (df : DataFrame) :
  (∀ c, c ∈ df →
        header_key c.1 ∉ purchase_order_names ++ product_names ++ base_url_names) →
  (∀ h0 c0 h1 c1 h2 c2 rest,
      df = (h0, c0) :: (h1, c1) :: (h2, c2) :: rest →
      read_orders df = Ok (orders_frame (clean c0) (clean c1) (clean c2)))
  ∧ ((length df < 3)%nat → ∃ names k, read_orders df = Err (KeyError names k)).
Proof.
  intros Hno.
  assert (∀ names, names ⊆ purchase_order_names ++ product_names ++ base_url_names →
            no_alias (normalize_column_names df) names) as Hnames.
  { intros names Hsub. apply no_alias_normalized_names.
    - intros n Hn. apply order_names_lower. by apply Hsub.
    - intros c Hc Hin. apply (Hno c Hc). by apply Hsub. }
  assert (no_alias (normalize_column_names df) purchase_order_names) as Hpo
    by (apply Hnames; intros n ?; rewrite !elem_of_app; tauto).
  assert (no_alias (normalize_column_names df) product_names) as Hp
    by (apply Hnames; intros n ?; rewrite !elem_of_app; tauto).
  assert (no_alias (normalize_column_names df) base_url_names) as Hb
    by (apply Hnames; intros n ?; rewrite !elem_of_app; tauto).
  split.
  - intros h0 c0 h1 c1 h2 c2 rest ->. unfold read_orders.
    rewrite (get_column_positional _ _ 0 (py_strip h0) c0 Hpo ltac:(lia) eq_refl).
    rewrite (get_column_positional _ _ 1 (py_strip h1) c1 Hp ltac:(lia) eq_refl).
    rewrite (get_column_positional _ _ 2 (py_strip h2) c2 Hb ltac:(lia) eq_refl).
    done.
  - intros Hlen. unfold read_orders.
    destruct (get_column _ purchase_order_names 0) as [sel0|e0] eqn:H0;
      [|apply get_column_Err in H0 as (-> & _); cbn; eauto].
    destruct (get_column _ product_names 1) as [sel1|e1] eqn:H1;
      [|apply get_column_Err in H1 as (-> & _); cbn; eauto].
    destruct (get_column _ base_url_names 2) as [sel2|e2] eqn:H2;
      [|apply get_column_Err in H2 as (-> & _); cbn; eauto].
    apply (get_column_fallback _ _ _ _ Hb) in H2 as (h & s & Hlk & _).
    apply lookup_lt_Some in Hlk.
    unfold normalize_column_names in Hlk. rewrite length_fmap in Hlk. lia.
Qed.

(** ** Failures of the readers *)

Lemma normalize_column_names_labels (df : DataFrame) :
  (normalize_column_names df).*1 = py_strip <$> df.*1.
Proof. unfold normalize_column_names. by rewrite <-!list_fmap_compose. Qed.

Lemma get_column_frame (df : DataFrame) names k cols :
  get_column (normalize_column_names df) names k = Ok (FrameOf cols) →
  ¬ NoDup (py_strip <$> df.*1).
Proof.
  intros Hget Hnodup. rewrite <-normalize_column_names_labels in Hnodup.
  by destruct (get_column_column _ _ _ _ Hnodup Hget) as (h & s & _ & ? & _).
Qed.

Lemma get_column_key_error (df : DataFrame) names k e :
  get_column (normalize_column_names df) names k = Err e →
  e = KeyError names k
  ∧ no_alias (normalize_column_names df) names
  ∧ ¬ (0 ≤ k < Z.of_nat (length df)).
Proof.
  intros (-> & Hno & Hk)%get_column_Err. split_and!; [done..|].
  unfold normalize_column_names in Hk. by rewrite length_fmap in Hk.
Qed.

(** X17. Once [pd.read_excel] has returned the frame, [read_orders]
    fails in two ways only: with the [KeyError] of a field none of whose
    aliases is a header and whose fallback index (0, 1, 2) is beyond the
    last column, or, when two headers are equal once trimmed, with
    [AttributeError]. *)
Theorem read_orders_errors (df : DataFrame) e :
  read_orders df = Err e →
  (∃ names k,
      e = KeyError names k
      ∧ (names, k) ∈ [(purchase_order_names, 0); (product_names, 1);
                      (base_url_names, 2)]
      ∧ no_alias (normalize_column_names df) names
      ∧ Z.of_nat (length df) ≤ k)
  ∨ (e = AttributeError ∧ ¬ NoDup (py_strip <$> df.*1)).
Proof.
  unfold read_orders.
  destruct (get_column _ purchase_order_names 0) as [sel0|e0] eqn:H0.
  2:{ apply get_column_key_error in H0 as (-> & ? & ?). intros [= <-].
      left. eexists _, _. split_and!; [done|left|done|lia]. }
  destruct (get_column _ product_names 1) as [sel1|e1] eqn:H1.
  2:{ apply get_column_key_error in H1 as (-> & ? & ?). intros [= <-].
      left. eexists _, _. split_and!; [done|right; left|done|lia]. }
  destruct (get_column _ base_url_names 2) as [sel2|e2] eqn:H2.
  2:{ apply get_column_key_error in H2 as (-> & ? & ?). intros [= <-].
      left. eexists _, _. split_and!; [done|right; right; left|done|lia]. }
  destruct sel0 as [s0|cols0];
    [|apply get_column_frame in H0; intros [= <-]; by right].
  destruct sel1 as [s1|cols1];
    [|apply get_column_frame in H1; intros [= <-]; by right].
  destruct sel2 as [s2|cols2];
    [|apply get_column_frame in H2; intros [= <-]; by right].
  done.
Qed.

(** * Further properties of file-pair discovery and the batch driver *)

(** ** Strings again *)

Lemma string_length_app a b :
  String.length (a +:+ b) = (String.length a + String.length b)%nat.
Proof. induction a as [|c a IH]; [done|]. rewrite string_app_cons. simpl. by rewrite IH. Qed.

Lemma string_app_assoc a b c : (a +:+ b) +:+ c = a +:+ (b +:+ c).
Proof. induction a as [|x a IH]; [done|]. by rewrite !string_app_cons, IH. Qed.

Lemma string_app_inj_r a b t : a +:+ t = b +:+ t → a = b.
Proof.
  revert b. induction a as [|x a IH]; intros [|y b] Heq; [done|..].
  - apply (f_equal String.length) in Heq.
    rewrite !string_length_app in Heq. simpl in Heq. lia.
  - apply (f_equal String.length) in Heq.
    rewrite !string_length_app in Heq. simpl in Heq. lia.
  - rewrite !string_app_cons in Heq. injection Heq as -> Heq. f_equal. by apply IH.
Qed.

Lemma rev_app_spec s acc : String.rev_app s acc = String.rev s +:+ acc.
Proof.
  unfold String.rev. revert acc. induction s as [|c s IH]; intros acc; [done|].
  simpl. rewrite (IH (String c acc)), (IH (String c "")).
  by rewrite string_app_assoc.
Qed.

Lemma string_rev_app a b : String.rev (a +:+ b) = String.rev b +:+ String.rev a.
Proof.
  assert (∀ acc, String.rev_app (a +:+ b) acc
                 = String.rev_app b (String.rev_app a acc)) as H.
  { induction a as [|c a IH]; intros acc; [done|].
    rewrite string_app_cons. simpl. apply IH. }
  unfold String.rev at 1. rewrite H, rev_app_spec. done.
Qed.

Lemma lower_app a b : Str.lower (a +:+ b) = Str.lower a +:+ Str.lower b.
Proof.
  induction a as [|c a IH]; [done|].
  rewrite string_app_cons. simpl. by rewrite IH.
Qed.

Lemma rfind_dot_app a b i :
  Str.rfind_dot b = Some i →
  Str.rfind_dot (a +:+ b) = Some (String.length a + i)%nat.
Proof.
  intros Hb. induction a as [|c a IH]; [done|].
  rewrite string_app_cons. simpl. by rewrite IH.
Qed.

Lemma take_app a b n :
  Str.take (String.length a + n) (a +:+ b) = a +:+ Str.take n b.
Proof.
  induction a as [|c a IH]; [done|].
  rewrite !string_app_cons. simpl. by rewrite IH.
Qed.

Lemma stem_output_name base : stem (output_name base) = base +:+ "_urls".
Proof.
  unfold stem, output_name.
  rewrite (rfind_dot_app base "_urls.xlsx" 5) by done.
  rewrite string_length_app. simpl.
  rewrite decide_True by lia. by rewrite take_app.
Qed.

Lemma output_name_not_recognised base :
  Str.endswith (Str.lower (stem (output_name base))) "_eans" = false
  ∧ Str.endswith (Str.lower (stem (output_name base))) "_orders" = false.
Proof.
  rewrite stem_output_name, lower_app. unfold Str.endswith.
  rewrite string_rev_app. done.
Qed.

Lemma scan_path_output_name st base : scan_path st (output_name base) = st.
Proof.
  destruct st as [E O]. unfold scan_path.
  destruct (output_name_not_recognised base) as [-> ->]. done.
Qed.

Lemma startswith_app p s : Str.startswith (p +:+ s) p = true.
Proof.
  induction p as [|c p IH]; [by destruct s|].
  rewrite string_app_cons. simpl. by rewrite decide_True.
Qed.

Lemma output_name_xlsx base : Str.endswith (output_name base) ".xlsx" = true.
Proof.
  unfold Str.endswith, output_name.
  change (base +:+ "_urls.xlsx") with (base +:+ ("_urls" +:+ ".xlsx")).
  rewrite <-string_app_assoc, string_rev_app. apply startswith_app.
Qed.

Global Instance output_name_inj : Inj (=) (=) output_name.
Proof. intros a b. apply string_app_inj_r. Qed.

(** X19. The files [main] writes are never taken for input files: a
    name of the form [<base>_urls.xlsx] changes nothing in the scan, so a
    directory listing with such names in it yields the same pairs as the
    listing without them. *)
Theorem find_file_pairs_ignores_outputs before base after :
  find_file_pairs (before ++ output_name base :: after)
  = find_file_pairs (before ++ after).
Proof.
  unfold find_file_pairs, glob_xlsx.
  rewrite !filter_app, filter_cons_True by apply output_name_xlsx.
  rewrite !foldl_app. cbn [foldl]. by rewrite scan_path_output_name.
Qed.

(** ** Dictionaries in insertion order *)

Section pydict_keys.
Context {V : Type}.
Implicit Types (d : pydict V) (k : string) (v : V).

Lemma elem_of_dict_set_keys d k v x :
  x ∈ (dict_set d k v).*1 ↔ x = k ∨ x ∈ d.*1.
Proof.
  induction d as [|[k0 v0] d IH]; simpl.
  - rewrite list_elem_of_singleton, elem_of_nil. tauto.
  - destruct (decide (k0 = k)) as [->|Hne]; simpl.
    + rewrite !elem_of_cons. tauto.
    + rewrite !elem_of_cons, IH. tauto.
Qed.

Lemma NoDup_dict_set d k v : NoDup d.*1 → NoDup (dict_set d k v).*1.
Proof.
  induction d as [|[k0 v0] d IH]; simpl.
  - intros _. apply NoDup_singleton.
  - rewrite NoDup_cons. intros [Hnotin Hnodup].
    destruct (decide (k0 = k)) as [->|Hne]; simpl.
    + by apply NoDup_cons.
    + apply NoDup_cons. split; [|by apply IH].
      rewrite elem_of_dict_set_keys. intros [?|?]; done.
Qed.

Lemma dict_get_NoDup d k v : NoDup d.*1 → (k, v) ∈ d → dict_get d k = Some v.
Proof.
  induction d as [|[k0 v0] d IH]; simpl.
  - by intros _ ?%elem_of_nil.
  - rewrite NoDup_cons. intros [Hnotin Hnodup] [[= -> ->]|Hin]%elem_of_cons.
    + by rewrite decide_True.
    + rewrite decide_False; [by apply IH|].
      intros ->. apply Hnotin. apply list_elem_of_fmap. by exists (k, v).
Qed.


End pydict_keys.

(** ** The scan, continued *)

Lemma scan_path_eans E O p b :
  recognised "_eans" b p → scan_path (E, O) p = (dict_set E b p, O).
Proof.
  intros Hrec.
  destruct (scan_path_cases E O p) as [[Hr ->]|[[Hr ->]|(HnE & _ & _)]].
  - by destruct Hrec as [_ <-].
  - by destruct (recognised_eans_not_orders _ _ _ Hrec Hr).
  - by destruct (HnE b).
Qed.

Lemma scan_path_orders E O p b :
  recognised "_orders" b p → scan_path (E, O) p = (E, dict_set O b p).
Proof.
  intros Hrec.
  destruct (scan_path_cases E O p) as [[Hr ->]|[[Hr ->]|(_ & HnO & _)]].
  - by destruct (recognised_eans_not_orders _ _ _ Hr Hrec).
  - by destruct Hrec as [_ <-].
  - by destruct (HnO b).
Qed.

Lemma scan_paths_keep l E0 O0 E O b :
  foldl scan_path (E0, O0) l = (E, O) →
  ((∀ q, q ∈ l → ¬ recognised "_eans" b q) → dict_get E b = dict_get E0 b)
  ∧ ((∀ q, q ∈ l → ¬ recognised "_orders" b q) → dict_get O b = dict_get O0 b).
Proof.
  revert E0 O0. induction l as [|p l IH]; intros E0 O0; cbn [foldl].
  - by intros [= -> ->].
  - destruct (scan_path_cases E0 O0 p)
      as [[Hrec ->]|[[Hrec ->]|(_ & _ & ->)]];
      intros [HE HO]%IH; split; intros Hno.
    + rewrite HE by (intros q ?; apply Hno; by right).
      rewrite dict_get_set, decide_False; [done|].
      intros <-. apply (Hno p); [left|done].
    + apply HO. intros q ?. apply Hno. by right.
    + apply HE. intros q ?. apply Hno. by right.
    + rewrite HO by (intros q ?; apply Hno; by right).
      rewrite dict_get_set, decide_False; [done|].
      intros <-. apply (Hno p); [left|done].
    + apply HE. intros q ?. apply Hno. by right.
    + apply HO. intros q ?. apply Hno. by right.
Qed.

Lemma scan_paths_NoDup l E0 O0 E O :
  foldl scan_path (E0, O0) l = (E, O) → NoDup E0.*1 → NoDup E.*1.
Proof.
  revert E0 O0. induction l as [|p l IH]; intros E0 O0; cbn [foldl].
  - by intros [= -> ->].
  - destruct (scan_path_cases E0 O0 p)
      as [[Hrec ->]|[[Hrec ->]|(_ & _ & ->)]];
      intros Hscan Hnodup; eapply IH; try done.
    by apply NoDup_dict_set.
Qed.

Lemma pairs_bases_sublist (E O : pydict string) :
  (λ t : string * string * string, t.2)
    <$> omap (λ item : string * string,
                let '(base, eans_path) := item in
                (λ orders_path, (eans_path, orders_path, base))
                  <$> dict_get O base) E
  `sublist_of` E.*1.
Proof.
  induction E as [|[b e] E IH]; [done|]. csimpl.
  destruct (dict_get O b); csimpl; [by apply sublist_skip|by apply sublist_cons].
Qed.

Lemma find_file_pairs_bases_distinct_aux directory :
  NoDup ((λ t : string * string * string, t.2) <$> find_file_pairs directory).
Proof.
  unfold find_file_pairs.
  destruct (foldl scan_path ([], []) (glob_xlsx directory)) as [E O] eqn:Hscan.
  eapply sublist_NoDup; [|apply pairs_bases_sublist].
  eapply scan_paths_NoDup; [done|]. constructor.
Qed.

(** X20. No base name is paired twice: the bases of the returned triples
    are pairwise different, and so are the output names derived from
    them. *)
Theorem find_file_pairs_bases_distinct directory :
  NoDup ((λ t, t.2) <$> find_file_pairs directory)
  ∧ NoDup ((λ t, output_name t.2) <$> find_file_pairs directory).
Proof.
  pose proof (find_file_pairs_bases_distinct_aux directory) as Hbases.
  split; [done|].
  assert ((λ t : string * string * string, output_name t.2)
            <$> find_file_pairs directory
          = output_name <$> ((λ t, t.2) <$> find_file_pairs directory)) as ->
    by by rewrite <-list_fmap_compose.
  by apply (NoDup_fmap_2 output_name).
Qed.

(** X21. When several files carry the same base and role (their suffixes
    differing in case), the pair for that base is made of the ones listed
    last. *)
Theorem find_file_pairs_last_wins directory e o b :
  (e, o, b) ∈ find_file_pairs directory →
  (∀ before p after,
      glob_xlsx directory = before ++ p :: after →
      recognised "_eans" b p →
      (∀ q, q ∈ after → ¬ recognised "_eans" b q) →
      e = p)
  ∧ (∀ before p after,
        glob_xlsx directory = before ++ p :: after →
        recognised "_orders" b p →
        (∀ q, q ∈ after → ¬ recognised "_orders" b q) →
        o = p).
Proof.
  unfold find_file_pairs.
  destruct (foldl scan_path ([], []) (glob_xlsx directory)) as [E O] eqn:Hscan.
  intros ([b' e'] & Hin & Hf)%list_elem_of_omap.
  destruct (dict_get O b') as [o'|] eqn:Hget; [|done].
  injection Hf as -> -> ->.
  assert (dict_get E b = Some e) as HgetE.
  { apply dict_get_NoDup; [|done].
    eapply scan_paths_NoDup; [done|]. constructor. }
  split; intros before p after Hglob Hrec Hafter;
    rewrite Hglob, foldl_app in Hscan; cbn [foldl] in Hscan;
    destruct (foldl scan_path ([], []) before) as [E1 O1].
  - rewrite (scan_path_eans _ _ _ _ Hrec) in Hscan.
    apply (scan_paths_keep _ _ _ _ _ b) in Hscan as [HE _].
    rewrite HE, dict_get_set, decide_True in HgetE by done. congruence.
  - rewrite (scan_path_orders _ _ _ _ Hrec) in Hscan.
    apply (scan_paths_keep _ _ _ _ _ b) in Hscan as [_ HO].
    rewrite HO, dict_get_set, decide_True in Hget by done. congruence.
Qed.

(** ** The batch driver *)





End generate_urls.

(** * The sample inputs

    The sample inputs are ASCII text and make small sheets: on them the
    library functions are those of module [Str], and the writer refuses
    nothing. *)

Lemma ascii_str_laws : PyStrLaws ascii_str.
Proof. split; [done|done|apply strip_idemp]. Qed.

#[global] Existing Instances ascii_str accepting_writer ascii_str_laws.

Example build_urls_ex1 :
  build_urls [mkOrder "PO1" "P1" "http://x.com/"] [mkEan "P1" "0012345"]
  = ([mkUrlRow "PO1" "P1" "http://x.com" "0012345" "http://x.com/01/0012345/10/PO1"], []).
Proof. vm_compute. reflexivity. Qed.

Example build_urls_ex2 :
  build_urls [mkOrder "PO2" "P9" "http://y.com"] [mkEan "P1" "0012345"]
  = ([], [mkOrder "PO2" "P9" "http://y.com"]).
Proof. vm_compute. reflexivity. Qed.

Example process_pair_ex1 :
  process_pair ex_eans_table ex_orders_table = Ok ex_workbook.
Proof. vm_compute. reflexivity. Qed.

Example main_ex1 : main ex_files = (ex_lines, 0).
Proof. vm_compute. reflexivity. Qed.

Example find_file_pairs_ex1 :
  find_file_pairs ["a_eans.xlsx"; "notes.txt"; "a_orders.xlsx"; "b_EANS.xlsx"; "B_orders.xlsx"]
  = [("a_eans.xlsx", "a_orders.xlsx", "a")].
Proof. vm_compute. reflexivity. Qed.





(** C7, as stated, fails for the EAN table, whose product falls back on
    the first column. *)
Lemma eans_product_fallback_first_column :
  (∀ c, c ∈ ex_eans_table → header_key c.1 ∉ product_names)
  ∧ read_eans ex_eans_table = Ok [mkEan "P1" "0012345"]
  ∧ ¬ (∃ h s e, ex_eans_table !! 1%nat = Some (h, s)
                ∧ [mkEan "P1" "0012345"] = eans_frame (clean s) e).
Proof.
  split_and!.
  - intros c Hc. unfold ex_eans_table in Hc.
    repeat (apply elem_of_cons in Hc as [->|Hc]; [compute_done|]).
    by apply elem_of_nil in Hc.
  - vm_compute. reflexivity.
  - intros (h & s & e & [= <- <-] & Hrows).
    destruct e as [|x e]; [done|].
    unfold eans_frame in Hrows. cbn in Hrows.
    destruct (replace_na x); cbn in Hrows; discriminate.
Qed.

Lemma product_column_resolution_witness :
  ex_orders_table = [("PO", [Some "PO1"])] ++ ("SKU", [Some " P1 "]) :: [("URL", [Some "http://x.com/"])]
  ∧ header_key "SKU" = "sku"
  ∧ read_orders ex_orders_table = Ok [mkOrder "PO1" "P1" "http://x.com/"]
  ∧ (∃ po base,
       get_column (normalize_column_names ex_orders_table) purchase_order_names 0
         = Ok (SeriesOf po)
       ∧ get_column (normalize_column_names ex_orders_table) base_url_names 2
         = Ok (SeriesOf base)
       ∧ [mkOrder "PO1" "P1" "http://x.com/"]
         = orders_frame (clean po) (clean [Some " P1 "]) (clean base))
  ∧ (∃ h s po base,
       ex_plain_orders_table !! 1%nat = Some (h, s)
       ∧ get_column (normalize_column_names ex_plain_orders_table) purchase_order_names 0
         = Ok (SeriesOf po)
       ∧ get_column (normalize_column_names ex_plain_orders_table) base_url_names 2
         = Ok (SeriesOf base)
       ∧ [mkOrder "PO1" "P1" "http://x.com/"]
         = orders_frame (clean po) (clean s) (clean base)).
Proof.
  assert (read_orders ex_orders_table = Ok [mkOrder "PO1" "P1" "http://x.com/"])
    as Hread by (vm_compute; reflexivity).
  assert (read_orders ex_plain_orders_table = Ok [mkOrder "PO1" "P1" "http://x.com/"])
    as Hplain by (vm_compute; reflexivity).
  split_and!; [reflexivity|reflexivity|exact Hread|..].
  - refine (proj1 (proj1 (product_column_resolution ex_orders_table)
                     [("PO", [Some "PO1"])] "SKU" [Some " P1 "]
                     [("URL", [Some "http://x.com/"])] eq_refl eq_refl _) _ Hread).
    intros c Hc. simpl in Hc.
    repeat (apply elem_of_cons in Hc as [->|Hc]; [compute_done|]).
    by apply elem_of_nil in Hc.
  - refine (proj1 (proj2 (product_column_resolution ex_plain_orders_table) _) _ Hplain).
    intros c Hc. unfold ex_plain_orders_table in Hc.
    repeat (apply elem_of_cons in Hc as [->|Hc]; [compute_done|]).
    by apply elem_of_nil in Hc.
Defined.

Lemma matched_rows_unique_keys_witness :
  NoDup ((λ e, product_key (e_product e)) <$> ex_eans)
  ∧ (length (build_urls ex_orders_dup ex_eans).1 ≤ length ex_orders_dup)%nat.
Proof.
  assert (NoDup ((λ e, product_key (e_product e)) <$> ex_eans)) as Hkeys.
  { apply NoDup_singleton. }
  split; [exact Hkeys|].
  exact (proj2 (matched_rows_unique_keys ex_orders_dup ex_eans Hkeys)).
Defined.

Lemma unmatched_key_not_matched_witness :
  mkOrder "PO2" "P9" "http://y.com" ∈ (build_urls ex_orders_dup ex_eans).2
  ∧ ex_row ∈ (build_urls ex_orders_dup ex_eans).1
  ∧ product_key (product ex_row) ≠ product_key "P9".
Proof.
  assert (mkOrder "PO2" "P9" "http://y.com" ∈ (build_urls ex_orders_dup ex_eans).2)
    as Hu by (vm_compute; left).
  assert (ex_row ∈ (build_urls ex_orders_dup ex_eans).1)
    as Hm by (vm_compute; left).
  split_and!; [exact Hu|exact Hm|].
  exact (unmatched_key_not_matched _ _ _ _ Hu Hm).
Defined.

Lemma get_column_alias_ignores_fallback_witness :
  ¬ no_alias ex_orders_table product_names
  ∧ get_column ex_orders_table product_names 1
    = get_column ex_orders_table product_names 7.
Proof.
  assert (¬ no_alias ex_orders_table product_names) as Hyes.
  { intros Hno. apply (Hno "sku" "SKU"); [compute_done..|reflexivity]. }
  split; [exact Hyes|].
  exact (get_column_alias_ignores_fallback ex_orders_table product_names 1 7 Hyes).
Defined.

Lemma get_column_unique_labels_witness :
  NoDup ex_orders_table.*1
  ∧ get_column ex_orders_table product_names 1 = Ok (SeriesOf [Some " P1 "])
  ∧ ∃ h s, (h, s) ∈ ex_orders_table ∧ SeriesOf [Some " P1 "] = SeriesOf s.
Proof.
  assert (NoDup ex_orders_table.*1) as Hnodup by vm_decide.
  assert (get_column ex_orders_table product_names 1 = Ok (SeriesOf [Some " P1 "]))
    as Hget by (by vm_compute).
  split_and!; [exact Hnodup|exact Hget|].
  destruct (get_column_unique_labels _ _ _ _ Hnodup Hget) as (h & s & ? & ? & _).
  by exists h, s.
Defined.

Lemma get_column_first_alias_witness :
  get_column ex_orders_table (["product"; "product_code"] ++ "sku" :: []) 1
  = Ok (SeriesOf [Some " P1 "]).
Proof.
  apply (get_column_first_alias ex_orders_table _ "sku" [] 1 "SKU").
  - vm_decide.
  - compute_done.
  - reflexivity.
  - intros n c Hn Hc.
    repeat (apply elem_of_cons in Hn as [->|Hn]);
      try (by apply elem_of_nil in Hn);
      unfold ex_orders_table in Hc; simpl in Hc;
      repeat (apply elem_of_cons in Hc as [->|Hc]);
      try (by apply elem_of_nil in Hc); by vm_compute.
Defined.

Lemma read_orders_normalized_witness :
  read_orders ex_orders_table = Ok [mkOrder "PO1" "P1" "http://x.com/"]
  ∧ py_strip "P1" = "P1" ∧ present "P1".
Proof.
  assert (read_orders ex_orders_table = Ok [mkOrder "PO1" "P1" "http://x.com/"])
    as Hread by (by vm_compute).
  assert (mkOrder "PO1" "P1" "http://x.com/" ∈ [mkOrder "PO1" "P1" "http://x.com/"])
    as Hin by left.
  destruct (read_orders_normalized _ _ _ Hread Hin) as ((_ & Hp & _) & _ & Hs & _).
  split_and!; [exact Hread|exact Hs|exact Hp].
Defined.

Lemma read_eans_normalized_witness :
  read_eans ex_eans_table = Ok [mkEan "P1" "0012345"]
  ∧ ean_present (mkEan "P1" "0012345").
Proof.
  assert (read_eans ex_eans_table = Ok [mkEan "P1" "0012345"])
    as Hread by (by vm_compute).
  assert (mkEan "P1" "0012345" ∈ [mkEan "P1" "0012345"]) as Hin by left.
  split; [exact Hread|].
  exact (proj1 (read_eans_normalized _ _ _ Hread Hin)).
Defined.


Lemma read_orders_positional_witness :
  read_orders ex_plain_orders_table
  = Ok (orders_frame (clean [Some "PO1"]) (clean [Some "P1"])
          (clean [Some "http://x.com/"])).
Proof.
  refine (proj1 (read_orders_positional ex_plain_orders_table _)
            _ _ _ _ _ _ [] eq_refl).
  intros c Hc. unfold ex_plain_orders_table in Hc.
  repeat (apply elem_of_cons in Hc as [->|Hc]; [vm_decide|]).
  by apply elem_of_nil in Hc.
Defined.

Lemma read_orders_errors_witness :
  read_orders [("a", [Some "PO1"]); ("b", [Some "P1"])]
  = Err (KeyError base_url_names 2)
  ∧ ∃ names k, KeyError base_url_names 2 = KeyError names k
               ∧ 2 ≤ k.
Proof.
  assert (read_orders [("a", [Some "PO1"]); ("b", [Some "P1"])]
          = Err (KeyError base_url_names 2)) as Hread by (by vm_compute).
  split; [exact Hread|].
  destruct (read_orders_errors _ _ Hread) as [(names & k & ? & _ & _ & ?)|[? _]];
    [|done].
  by exists names, k.
Defined.

Lemma find_file_pairs_last_wins_witness :
  ("a_EANS.xlsx", "a_orders.xlsx", "a")
    ∈ find_file_pairs ["a_eans.xlsx"; "a_orders.xlsx"; "a_EANS.xlsx"]
  ∧ "a_EANS.xlsx" = "a_EANS.xlsx".
Proof.
  assert (("a_EANS.xlsx", "a_orders.xlsx", "a")
            ∈ find_file_pairs ["a_eans.xlsx"; "a_orders.xlsx"; "a_EANS.xlsx"])
    as Hin by (vm_compute; left).
  split; [exact Hin|].
  refine (proj1 (find_file_pairs_last_wins _ _ _ _ Hin)
            ["a_eans.xlsx"; "a_orders.xlsx"] "a_EANS.xlsx" [] _ _ _).
  - by vm_compute.
  - by vm_compute.
  - by intros q ?%elem_of_nil.
Defined.



Lemma join_on_product_key_witness :
  build_urls [mkOrder "PO1" "ABC " "http://x.com"] [mkEan "abc" "0012345"]
  = ([mkUrlRow "PO1" "ABC " "http://x.com" "0012345"
        "http://x.com/01/0012345/10/PO1"], []).
Proof.
  exact (proj2 (proj2 (@join_on_product_key ascii_str ascii_str_laws
                         ex_orders_slash ex_eans))).
Defined.
